(** * Socket.io chat server: sessions, rooms, message logs and broadcasts

    A shallow embedding of [src/server/server.js] (the event handlers
    registered inside [io.on("connection", ...)]) together with the part of
    [src/client/src/socket/socket.js] that requests older messages.

    The three process-wide objects [users], [rooms] and [typingUsers] are
    JavaScript objects used as dictionaries; they are modelled as ordered
    association lists so that [Object.values] and [for ... in] enumerate them
    in the order JavaScript does.  The socket.io adapter (which socket is in
    which room) is not part of the repository; it is modelled as a finite map
    from socket ids to sets of room names, with the library's documented
    behaviour for [socket.join], [socket.leave], [io.to(room)], [socket.to(room)]
    and the clean-up that precedes the ["disconnect"] event.

    [rooms] is a plain object, so a read of [rooms[name]] finds the
    properties of [Object.prototype] as well: room names are given by
    clients, and for a name such as ["constructor"] the value read is not a
    log ([JsObj.inherited]).  Socket ids are the ids socket.io generates; they
    are never such names. *)

From Stdlib Require Import ZArith Strings.String Strings.Ascii List Lia.
From Stdlib Require Import DecimalString Sorting.Sorted.
From stdpp Require Import base tactics option list strings sorting gmap fin_maps.

Local Open Scope Z_scope.

(** ** JavaScript objects used as dictionaries *)

Module JsObj.

Definition obj (V : Type) : Type := list (string * V).

(** A property name is an array index when it is the canonical decimal form
    of an integer below [2^32 - 1]; such names are enumerated first, in
    ascending order, before all other names in creation order. *)
Definition array_index (k : string) : option N :=
  match NilEmpty.uint_of_string k with
  | Some u =>
      let n := N.of_uint u in
      if (String.eqb (NilEmpty.string_of_uint (N.to_uint n)) k
          && (n <? 4294967295)%N)%bool
      then Some n else None
  | None => None
  end.

(** The names that every plain object inherits from [Object.prototype]: for
    such a name [k], [o[k]] is a function (an object for ["__proto__"]) unless
    [o] has a property of its own under that name. *)
Definition inherited (k : string) : bool :=
  bool_decide
    (k ∈ [ "constructor"; "__defineGetter__"; "__defineSetter__";
           "hasOwnProperty"; "__lookupGetter__"; "__lookupSetter__";
           "isPrototypeOf"; "propertyIsEnumerable"; "toString"; "valueOf";
           "__proto__"; "toLocaleString" ]).

(** [key_before k k'] : a new property [k] is enumerated before the existing
    property [k']. *)
Definition key_before (k k' : string) : bool :=
  match array_index k, array_index k' with
  | Some n, Some n' => (n <? n')%N
  | Some _, None => true
  | None, _ => false
  end.

Section Ops.
Context {V : Type}.

(** [o[k]] *)
Fixpoint get (o : obj V) (k : string) : option V :=
  match o with
  | [] => None
  | (k', v) :: o' => if decide (k = k') then Some v else get o' k
  end.

Definition has (o : obj V) (k : string) : bool :=
  match get o k with Some _ => true | None => false end.

(** assignment to an existing property keeps its position *)
Fixpoint update (k : string) (v : V) (o : obj V) : obj V :=
  match o with
  | [] => []
  | (k', v') :: o' =>
      if decide (k = k') then (k, v) :: o' else (k', v') :: update k v o'
  end.

(** creation of a new property *)
Fixpoint create (k : string) (v : V) (o : obj V) : obj V :=
  match o with
  | [] => [(k, v)]
  | (k', v') :: o' =>
      if key_before k k' then (k, v) :: (k', v') :: o'
      else (k', v') :: create k v o'
  end.

(** [o[k] = v] *)
Definition set (k : string) (v : V) (o : obj V) : obj V :=
  if has o k then update k v o else create k v o.

(** [delete o[k]] *)
Fixpoint remove (k : string) (o : obj V) : obj V :=
  match o with
  | [] => []
  | (k', v') :: o' =>
      if decide (k = k') then remove k o' else (k', v') :: remove k o'
  end.

(** [Object.values(o)] *)
Definition values (o : obj V) : list V := map snd o.

(** the names a [for (const k in o)] loop visits *)
Definition keys (o : obj V) : list string := map fst o.

End Ops.

End JsObj.

Import JsObj.

(** ** Data *)

(** [{ username, id, room }] as stored in [users]. *)
Record User := mkUser {
  username : string;
  user_id : string;
  user_room : string
}.

(** [{ userId, reaction }] as pushed onto [msg.reactions]. *)
Record Reaction := mkReaction {
  userId : string;
  reaction : string
}.

(** The object built by [createMessage].  A field that may hold [null] is an
    [option]. *)
Record Message := mkMessage {
  msg_id : Z;
  sender : string;
  senderId : string;
  message : string;
  timestamp : string;
  msg_room : option string;
  isPrivate : bool;
  fileData : option string;
  fileName : option string;
  reactions : list Reaction;
  readers : list string
}.

(** The argument object of [createMessage]; an absent property is [None]. *)
Record MessageData := mkData {
  d_sender : string;
  d_senderId : string;
  d_message : option string;
  d_room : option string;
  d_isPrivate : option bool;
  d_fileData : option string;
  d_fileName : option string
}.

(** The two clock reads of [createMessage]: [Date.now()] and
    [new Date().toISOString()]. *)
Record Clock := mkClock {
  date_now : Z;
  iso_string : string
}.

(** JavaScript truthiness of a possibly absent string: [undefined] and the
    empty string are falsy. *)
Definition truthy (x : option string) : option string :=
  match x with
  | Some s => if decide (s = "") then None else Some s
  | None => None
  end.

(** [x || d] on possibly absent strings *)
Definition js_or (x : option string) (d : string) : string :=
  match truthy x with Some s => s | None => d end.

Definition createMessage (clk : Clock) (data : MessageData) : Message :=
  {| msg_id := date_now clk;
     sender := d_sender data;
     senderId := d_senderId data;
     message := js_or (d_message data) "";
     timestamp := iso_string clk;
     msg_room := Some (js_or (d_room data) "global");
     isPrivate := match d_isPrivate data with Some b => b | None => false end;
     fileData := truthy (d_fileData data);
     fileName := truthy (d_fileName data);
     reactions := [];
     readers := [] |}.

(** ** The socket.io adapter *)

(** For every connected socket, the set of rooms it is in.  A socket joins the
    room named by its own id when it connects. *)
Abbreviation Adapter := (gmap string (gset string)).

Definition adapter_join (sid r : string) (a : Adapter) : Adapter :=
  alter (λ rs, {[ r ]} ∪ rs) sid a.

Definition adapter_leave (sid r : string) (a : Adapter) : Adapter :=
  alter (λ rs, rs ∖ {[ r ]}) sid a.

(** the member set of a room *)
Definition members (a : Adapter) (r : string) : gset string :=
  dom (filter (λ kv : string * gset string, r ∈ kv.2) a).

(** The audience of an emit.  [socket.to(r)] broadcasts to room [r] except
    the room named by the sender's id: every socket that is in that room is
    left out, the sender itself only as long as it is in it. *)
Inductive Audience :=
| Everyone                                   (* io.emit *)
| InRoom (r : string)                        (* io.to(r).emit *)
| InRoomExcept (r : string) (sid : string)   (* socket.to(r).emit *)
| Self (sid : string).                       (* socket.emit *)

Definition recipients (a : Adapter) (au : Audience) : gset string :=
  match au with
  | Everyone => dom a
  | InRoom r => members a r
  | InRoomExcept r sid => members a r ∖ members a sid
  | Self sid => {[ sid ]} ∩ dom a
  end.

(** The packets the server emits.  [room_messages_not_a_log] is the
    ["room_messages"] packet whose payload is the value of [rooms[roomName]]
    inherited from [Object.prototype], not a list of messages. *)
Inductive Packet :=
| user_list (us : list User)
| user_joined (name id : string)
| user_left (name id : string)
| room_messages (log : list Message)
| room_messages_not_a_log (roomName : string)
| room_users (us : list User)
| receive_message (m : Message)
| private_message_to_client (m : Message)
| typing_users (names : list string)
| message_reaction (messageId : Z) (r : string)
| message_read (messageId : Z) (rs : list string).

Definition Emission : Type := Audience * Packet.

(** ** Server state *)

Record State := mkState {
  users : obj User;                (* { socketId: { username, id, room } } *)
  rooms : obj (list Message);      (* { roomName: [messages] } *)
  typingUsers : obj string;        (* { socketId: username } *)
  sids : Adapter
}.

Definition init : State :=
  {| users := []; rooms := []; typingUsers := []; sids := ∅ |}.

(** What handling one event produces: the new state, the packets emitted (in
    order), the value passed to the client's acknowledgement callback when a
    handler calls it, and whether the handler threw.  Nothing catches what a
    handler throws: the process ends. *)
Record Outcome := mkOutcome {
  next : State;
  emitted : list Emission;
  ack : option (list Message);
  thrown : bool
}.

Definition silent (σ : State) : Outcome :=
  {| next := σ; emitted := []; ack := None; thrown := false |}.

(** A [TypeError] raised before anything is emitted. *)
Definition throws (σ : State) : Outcome :=
  {| next := σ; emitted := []; ack := None; thrown := true |}.

(** ** Event handlers *)

Definition has_id (messageId : Z) (m : Message) : bool := msg_id m =? messageId.

(** Mutation of the object returned by [Array.prototype.find]: the first
    element satisfying [p] is changed where it sits. *)
Fixpoint update_first (p : Message → bool) (f : Message → Message)
    (l : list Message) : list Message :=
  match l with
  | [] => []
  | m :: l' => if p m then f m :: l' else m :: update_first p f l'
  end.

Definition set_user_room (u : User) (r : string) : User :=
  {| username := username u; user_id := user_id u; user_room := r |}.

Definition push_reaction (x : Reaction) (m : Message) : Message :=
  {| msg_id := msg_id m; sender := sender m; senderId := senderId m;
     message := message m; timestamp := timestamp m; msg_room := msg_room m;
     isPrivate := isPrivate m; fileData := fileData m; fileName := fileName m;
     reactions := reactions m ++ [x]; readers := readers m |}.

Definition push_reader (name : string) (m : Message) : Message :=
  {| msg_id := msg_id m; sender := sender m; senderId := senderId m;
     message := message m; timestamp := timestamp m; msg_room := msg_room m;
     isPrivate := isPrivate m; fileData := fileData m; fileName := fileName m;
     reactions := reactions m; readers := readers m ++ [name] |}.

(** [socket.on("user_join", ...)] *)
Definition on_user_join (sid name : string) (σ : State) : Outcome :=
  let users' := set sid (mkUser name sid "global") (users σ) in
  {| next := {| users := users'; rooms := rooms σ;
                typingUsers := typingUsers σ;
                sids := adapter_join sid "global" (sids σ) |};
     emitted := [ (Everyone, user_list (values users'));
                  (Everyone, user_joined name sid) ];
     ack := None; thrown := false |}.

(** [Object.values(users).filter((u) => u.room === roomName)] *)
Definition roomUsers (us : obj User) (roomName : string) : list User :=
  filter (λ u, user_room u = roomName) (values us).

(** [socket.on("join_room", ...)].  [!rooms[roomName]] holds only when the
    name is neither a room nor inherited. *)
Definition on_join_room (sid roomName : string) (σ : State) : Outcome :=
  match get (users σ) sid with
  | None => silent σ
  | Some user =>
      let a1 := if decide (user_room user = "") then sids σ
                else adapter_leave sid (user_room user) (sids σ) in
      let users' := update sid (set_user_room user roomName) (users σ) in
      let a2 := adapter_join sid roomName a1 in
      let rooms' := if has (rooms σ) roomName then rooms σ
                    else if inherited roomName then rooms σ
                    else set roomName [] (rooms σ) in
      {| next := {| users := users'; rooms := rooms';
                    typingUsers := typingUsers σ; sids := a2 |};
         emitted :=
           [ (InRoom sid,
              match get rooms' roomName with
              | Some log => room_messages log
              | None => room_messages_not_a_log roomName
              end);
             (InRoom roomName, room_users (roomUsers users' roomName)) ];
         ack := None; thrown := false |}
  end.

(** [m] put at the end of the log of [r], which is created if absent. *)
Definition append_log (r : string) (m : Message)
    (rs : obj (list Message)) : obj (list Message) :=
  set r (default [] (get rs r) ++ [m]) rs.

(** [rooms[r] = rooms[r] || []; rooms[r].push(m)].  When [r] is no room and
    its name is inherited, [rooms[r]] is a value that has no [push]: the call
    throws ([None]). *)
Definition push_message (r : string) (m : Message)
    (rs : obj (list Message)) : option (obj (list Message)) :=
  if negb (has rs r) && inherited r then None else Some (append_log r m rs).

(** [socket.on("send_message", ...)] *)
Definition on_send_message (clk : Clock) (sid text : string) (σ : State)
    : Outcome :=
  match get (users σ) sid with
  | None => silent σ
  | Some user =>
      let msgData :=
        createMessage clk
          {| d_sender := username user; d_senderId := sid;
             d_message := Some text; d_room := Some (user_room user);
             d_isPrivate := None; d_fileData := None; d_fileName := None |} in
      match push_message (user_room user) msgData (rooms σ) with
      | None => throws σ
      | Some rooms' =>
          {| next := {| users := users σ; rooms := rooms';
                        typingUsers := typingUsers σ; sids := sids σ |};
             emitted := [ (InRoom (user_room user), receive_message msgData) ];
             ack := None; thrown := false |}
      end
  end.

(** [socket.on("private_message", ...)] *)
Definition on_private_message (clk : Clock) (sid to text : string) (σ : State)
    : Outcome :=
  match get (users σ) sid with
  | None => silent σ
  | Some user =>
      let msgData :=
        createMessage clk
          {| d_sender := username user; d_senderId := sid;
             d_message := Some text; d_room := None;
             d_isPrivate := Some true; d_fileData := None;
             d_fileName := None |} in
      {| next := σ;
         emitted := [ (InRoomExcept to sid, private_message_to_client msgData);
                      (Self sid, private_message_to_client msgData) ];
         ack := None; thrown := false |}
  end.

(** [socket.on("send_file", ...)] *)
Definition on_send_file (clk : Clock) (sid fname fdata : string) (σ : State)
    : Outcome :=
  match get (users σ) sid with
  | None => silent σ
  | Some user =>
      let fileMsg :=
        createMessage clk
          {| d_sender := username user; d_senderId := sid;
             d_message := None; d_room := Some (user_room user);
             d_isPrivate := None; d_fileData := Some fdata;
             d_fileName := Some fname |} in
      match push_message (user_room user) fileMsg (rooms σ) with
      | None => throws σ
      | Some rooms' =>
          {| next := {| users := users σ; rooms := rooms';
                        typingUsers := typingUsers σ; sids := sids σ |};
             emitted := [ (InRoom (user_room user), receive_message fileMsg) ];
             ack := None; thrown := false |}
      end
  end.

(** [socket.on("typing", ...)] *)
Definition on_typing (sid : string) (isTyping : bool) (σ : State) : Outcome :=
  match get (users σ) sid with
  | None => silent σ
  | Some user =>
      let typing' := if isTyping then set sid (username user) (typingUsers σ)
                     else remove sid (typingUsers σ) in
      {| next := {| users := users σ; rooms := rooms σ;
                    typingUsers := typing'; sids := sids σ |};
         emitted := [ (Everyone, typing_users (values typing')) ];
         ack := None; thrown := false |}
  end.

(** The loop of the ["react_message"] handler: the first room (in enumeration
    order) holding a message with the id gets the reaction, then [break]. *)
Fixpoint react_rooms (sid : string) (messageId : Z) (r : string)
    (rs : obj (list Message)) : obj (list Message) * list Emission :=
  match rs with
  | [] => ([], [])
  | (room, log) :: rest =>
      match find (has_id messageId) log with
      | Some _ =>
          ((room, update_first (has_id messageId)
                    (push_reaction (mkReaction sid r)) log) :: rest,
           [ (InRoom room, message_reaction messageId r) ])
      | None =>
          let '(rest', es) := react_rooms sid messageId r rest in
          ((room, log) :: rest', es)
      end
  end.

(** [socket.on("react_message", ...)] *)
Definition on_react_message (sid : string) (messageId : Z) (r : string)
    (σ : State) : Outcome :=
  let '(rooms', es) := react_rooms sid messageId r (rooms σ) in
  {| next := {| users := users σ; rooms := rooms';
                typingUsers := typingUsers σ; sids := sids σ |};
     emitted := es;
     ack := None; thrown := false |}.

(** The body of the ["read_message"] loop for one room: the new log and, when
    the reader was added, the reader list that is emitted. *)
Definition read_log (name : string) (messageId : Z) (log : list Message)
    : list Message * option (list string) :=
  match find (has_id messageId) log with
  | Some msg =>
      if decide (name ∈ readers msg) then (log, None)
      else (update_first (has_id messageId) (push_reader name) log,
            Some (readers msg ++ [name]))
  | None => (log, None)
  end.

(** The loop of the ["read_message"] handler over all rooms (no [break]). *)
Fixpoint read_rooms (name : string) (messageId : Z)
    (rs : obj (list Message)) : obj (list Message) * list Emission :=
  match rs with
  | [] => ([], [])
  | (room, log) :: rest =>
      let '(rest', es) := read_rooms name messageId rest in
      match read_log name messageId log with
      | (log', Some rds) =>
          ((room, log') :: rest', (InRoom room, message_read messageId rds) :: es)
      | (log', None) => ((room, log') :: rest', es)
      end
  end.

(** [socket.on("read_message", ...)] *)
Definition on_read_message (sid : string) (messageId : Z) (σ : State)
    : Outcome :=
  match get (users σ) sid with
  | None => silent σ
  | Some user =>
      let '(rooms', es) := read_rooms (username user) messageId (rooms σ) in
      {| next := {| users := users σ; rooms := rooms';
                    typingUsers := typingUsers σ; sids := sids σ |};
         emitted := es;
         ack := None; thrown := false |}
  end.

(** [socket.on("disconnect", ...)]; socket.io has already taken the socket out
    of every room when this handler runs (see [step]). *)
Definition on_disconnect (sid : string) (σ : State) : Outcome :=
  match get (users σ) sid with
  | None => silent σ
  | Some user =>
      let users' := remove sid (users σ) in
      let typing' := remove sid (typingUsers σ) in
      {| next := {| users := users'; rooms := rooms σ;
                    typingUsers := typing'; sids := sids σ |};
         emitted := [ (Everyone, user_left (username user) sid);
                      (Everyone, user_list (values users'));
                      (Everyone, typing_users (values typing')) ];
         ack := None; thrown := false |}
  end.

(** ** Events and the server's step function *)

(** What a client can send; [connection] and [disconnect] are raised by
    socket.io itself.  ["load_older_messages"] is emitted by the client
    ([loadOlderMessages] in socket.js) with an acknowledgement callback. *)
Inductive Event :=
| connection
| user_join (name : string)
| join_room (roomName : string)
| send_message (text : string)
| private_message (to text : string)
| send_file (fname fdata : string)
| typing (isTyping : bool)
| react_message (messageId : Z) (r : string)
| read_message (messageId : Z)
| load_older_messages (room privateToId : option string)
                      (oldestMessageId : option Z)
| disconnect.

Definition with_sids (σ : State) (a : Adapter) : State :=
  {| users := users σ; rooms := rooms σ; typingUsers := typingUsers σ;
     sids := a |}.

Definition connected (σ : State) (sid : string) : bool :=
  bool_decide (sid ∈ dom (sids σ)).

(** One event from socket [sid], handled at clock reading [clk].  The handlers
    exist from the socket's connection until its disconnection; an event with
    no registered listener (["load_older_messages"]) is dropped, and its
    acknowledgement callback is never called. *)
Definition step (clk : Clock) (sid : string) (ev : Event) (σ : State)
    : Outcome :=
  match ev with
  | connection =>
      if connected σ sid then silent σ
      else silent (with_sids σ (<[ sid := {[ sid ]} ]> (sids σ)))
  | _ =>
      if connected σ sid then
        match ev with
        | connection => silent σ
        | user_join name => on_user_join sid name σ
        | join_room roomName => on_join_room sid roomName σ
        | send_message text => on_send_message clk sid text σ
        | private_message to text => on_private_message clk sid to text σ
        | send_file fname fdata => on_send_file clk sid fname fdata σ
        | typing isTyping => on_typing sid isTyping σ
        | react_message messageId r => on_react_message sid messageId r σ
        | read_message messageId => on_read_message sid messageId σ
        | load_older_messages _ _ _ => silent σ
        | disconnect => on_disconnect sid (with_sids σ (delete sid (sids σ)))
        end
      else silent σ
  end.

(** An input is an event with the socket it comes from and the clock reading
    at which it is handled. *)
Record Input := mkInput {
  in_clock : Clock;
  in_sid : string;
  in_event : Event
}.

Definition step_in (i : Input) (σ : State) : Outcome :=
  step (in_clock i) (in_sid i) (in_event i) σ.

(** The state after a sequence of inputs.  A handler that throws ends the
    process and leaves nothing in the state, so the states the server reaches
    are those of the sequences it [survives]; [run] passes over an event
    whose handler throws. *)
Fixpoint run (tr : list Input) (σ : State) : State :=
  match tr with
  | [] => σ
  | i :: tr' => run tr' (next (step_in i σ))
  end.

(** No handler throws along the sequence. *)
Fixpoint survives (tr : list Input) (σ : State) : bool :=
  match tr with
  | [] => true
  | i :: tr' =>
      negb (thrown (step_in i σ)) && survives tr' (next (step_in i σ))
  end.

(** Who receives what: every emission resolved against the adapter of the
    state the handler leaves behind. *)
Definition deliveries (o : Outcome) : list (gset string * Packet) :=
  map (λ e : Emission, (recipients (sids (next o)) e.1, e.2)) (emitted o).

(** ** The client's request for older messages (socket.js) *)

Module Client.

(** The acknowledgement callback passed along with ["load_older_messages"]:
    a non-empty page is put in front of the messages the client holds. *)
Definition older_messages_arrived (olderMessages prev : list Message)
    : list Message :=
  match olderMessages with
  | [] => prev
  | _ => olderMessages ++ prev
  end.

(** [loadOlderMessages({ room, privateToId, oldestMessageId }, callback)]
    against a server in state [σ]: the page handed to [callback], if the
    server acknowledges the request, and the client's messages afterwards. *)
Definition loadOlderMessages (clk : Clock) (sid : string)
    (room privateToId : option string) (oldestMessageId : option Z)
    (σ : State) (prev : list Message)
    : option (list Message) * list Message :=
  match ack (step clk sid
               (load_older_messages room privateToId oldestMessageId) σ) with
  | Some olderMessages =>
      (Some olderMessages, older_messages_arrived olderMessages prev)
  | None => (None, prev)
  end.

End Client.

(** ** Auxiliary notions used in the statements *)


(** Every socket that receives at least one of the packets of an outcome. *)
Definition reached (o : Outcome) : gset string :=
  ⋃ (map fst (deliveries o)).

(** The client operations whose handler starts with
    [const user = users[socket.id]; if (!user) return;] (or, for ["typing"],
    wraps its body in [if (users[socket.id])]). *)
Definition guarded_by_session (ev : Event) : bool :=
  match ev with
  | join_room _ | send_message _ | private_message _ _ | send_file _ _
  | typing _ | read_message _ => true
  | _ => false
  end.

(** Sessions belong to connected sockets, typing marks belong to sessions,
    and every session record carries the socket id it is stored under. *)
Definition registry_ok (σ : State) : Prop :=
  (∀ sid u, get (users σ) sid = Some u → sid ∈ dom (sids σ)) ∧
  (∀ sid n, get (typingUsers σ) sid = Some n → is_Some (get (users σ) sid)) ∧
  Forall (λ kv, user_id kv.2 = kv.1) (users σ).

(** The room an event makes its session current in. *)
Definition joined_room (ev : Event) : option string :=
  match ev with
  | user_join _ => Some "global"
  | join_room roomName => Some roomName
  | _ => None
  end.

(** The socket ids and the room names that occur in a sequence of inputs. *)
Definition sockets_of (tr : list Input) : list string := map in_sid tr.

Definition room_names_of (tr : list Input) : list string :=
  omap (λ i, joined_room (in_event i)) tr.

(** Room names are non-empty and no room is named like a socket. *)
Definition names_apart (S : list string) (tr : list Input) : Prop :=
  Forall (λ r, r ≠ "" ∧ r ∉ S) (room_names_of tr).

#[global] Instance names_apart_dec S tr : Decision (names_apart S tr).
Proof. unfold names_apart. apply _. Defined.

(** ["user_join"] is sent only by connections that have no session yet. *)
Fixpoint joins_once (tr : list Input) (σ : State) : bool :=
  match tr with
  | [] => true
  | i :: tr' =>
      match in_event i with
      | user_join _ => negb (has (users σ) (in_sid i))
      | _ => true
      end && joins_once tr' (next (step_in i σ))
  end.

(** Every connected socket is in the room named by its own id and, when it
    has a session, in the session's current room, and in no other room. *)
Definition rooms_ok (S : list string) (σ : State) : Prop :=
  ∀ sid rs, sids σ !! sid = Some rs →
    sid ∈ S ∧
    match get (users σ) sid with
    | Some u => rs = {[ sid; user_room u ]} ∧ user_room u ≠ "" ∧ user_room u ∉ S
    | None => rs = {[ sid ]}
    end.

(** The outcomes of the successive inputs of a run. *)
Fixpoint outcomes (tr : list Input) (σ : State) : list Outcome :=
  match tr with
  | [] => []
  | i :: tr' => step_in i σ :: outcomes tr' (next (step_in i σ))
  end.


(** The [Date.now()] readings of a sequence of inputs. *)
Definition clock_readings (tr : list Input) : list Z :=
  map (λ i, date_now (in_clock i)) tr.

Definition at_time (n : Z) : Clock := {| date_now := n; iso_string := "" |}.

(** The log of a room, empty when the room does not exist. *)
Definition room_log (σ : State) (r : string) : list Message :=
  default [] (get (rooms σ) r).

(** [msg_grows m m'] : [m'] is [m] with possibly more reactions and readers
    appended; every other field is the same. *)
Definition msg_grows (m m' : Message) : Prop :=
  msg_id m' = msg_id m ∧ sender m' = sender m ∧ senderId m' = senderId m ∧
  message m' = message m ∧ timestamp m' = timestamp m ∧
  msg_room m' = msg_room m ∧ isPrivate m' = isPrivate m ∧
  fileData m' = fileData m ∧ fileName m' = fileName m ∧
  reactions m `prefix_of` reactions m' ∧ readers m `prefix_of` readers m'.

(** [log_extends P l l'] : position by position [l'] holds the messages of
    [l], each possibly grown, followed by new messages that satisfy [P]. *)
Definition log_extends (P : Message → Prop) (l l' : list Message) : Prop :=
  ∃ pre ext, l' = pre ++ ext ∧ Forall2 msg_grows l pre ∧ Forall P ext.

(** Two dictionaries with the same names in the same order and related
    values. *)
Definition obj_rel {V : Type} (R : V → V → Prop) (o o' : obj V) : Prop :=
  Forall2 (λ x y, x.1 = y.1 ∧ R x.2 y.2) o o'.


(** No message of any room has the id. *)
Definition id_unknown (messageId : Z) (rs : obj (list Message)) : Prop :=
  Forall (λ kv, Forall (λ m, msg_id m ≠ messageId) kv.2) rs.

(** No name occurs twice in any of the three dictionaries. *)
Definition keys_unique (σ : State) : Prop :=
  NoDup (keys (users σ)) ∧ NoDup (keys (rooms σ)) ∧
  NoDup (keys (typingUsers σ)).

(** Every session's socket is in the session's current room. *)
Definition in_current_room (σ : State) : Prop :=
  ∀ sid u, get (users σ) sid = Some u →
    ∃ rs, sids σ !! sid = Some rs ∧ user_room u ∈ rs.

(** Every message of every log satisfies [Q], which may depend on the name
    of the room. *)
Definition logs_satisfy (Q : string → Message → Prop) (σ : State) : Prop :=
  ∀ r log, get (rooms σ) r = Some log → Forall (Q r) log.

(** The room label [createMessage] gives a message logged under [r]. *)
Definition room_label (r : string) : string :=
  if decide (r = "") then "global" else r.

(** The number of reactions held by a log, and by all logs together. *)
Definition log_reactions (l : list Message) : nat :=
  sum_list_with (λ m, length (reactions m)) l.

Definition stored_reactions (σ : State) : nat :=
  sum_list_with (λ kv : string * list Message, log_reactions kv.2) (rooms σ).

(** No property of [rooms] itself is named like one it inherits: the
    handlers never create such a room. *)
Definition rooms_not_inherited (σ : State) : Prop :=
  ∀ r log, get (rooms σ) r = Some log → inherited r = false.

(** Whether some log holds a message with the id. *)
Definition holds_id (messageId : Z) (rs : obj (list Message)) : bool :=
  existsb (λ kv : string * list Message, existsb (has_id messageId) kv.2) rs.

(** The number of reactions an event adds: one for a ["react_message"] that
    comes from a connected socket and names an id some log holds, none
    otherwise. *)
Definition reactions_added (σ : State) (sid : string) (ev : Event) : nat :=
  match ev with
  | react_message messageId _ =>
      if connected σ sid && holds_id messageId (rooms σ) then 1%nat else 0%nat
  | _ => 0%nat
  end.

(** The number of ["message_reaction"] packets among some emissions. *)
Definition reaction_notices (es : list Emission) : nat :=
  sum_list_with
    (λ e : Emission, match e.2 with message_reaction _ _ => 1 | _ => 0 end)%nat
    es.

(** Everything emitted along a run, in order. *)
Definition all_emitted (tr : list Input) (σ : State) : list Emission :=
  concat (map emitted (outcomes tr σ)).

(** The list carried by a ["user_list"] broadcast. *)
Definition broadcast_user_list (e : Emission) : option (list User) :=
  match e with
  | (Everyone, user_list us) => Some us
  | _ => None
  end.

(** The online-user list most recently broadcast, if any. *)
Definition last_user_list (es : list Emission) : option (list User) :=
  last (omap broadcast_user_list es).

(** Who a session is: socket id and name (without the current room). *)
Definition who (u : User) : string * string := (user_id u, username u).

(** ** Read-only routes (server.js) *)

(** [GET /api/users] *)
Definition api_users (σ : State) : list User := values (users σ).

(** ** The client hook [useSocket] (socket.js) and the message pane (App.jsx)

    The state of the hook and the handlers it registers, as functions from
    state to state and effects.  The handlers are registered anew whenever
    [currentRoom] or [privateTo] changes, so they read the current values.
    [handleReaction] and [handleReadReceipt] are left out: the first stores
    reaction objects without a user id, which [Reaction] cannot hold. *)

Module Hook.

(** [{ id: Date.now(), system: true, message, timestamp }] *)
Record Notice := mkNotice {
  notice_id : Z;
  notice_text : string;
  notice_timestamp : string
}.

(** An element of [messages]: a message received from the server or a notice
    made by the client. *)
Inductive Entry :=
| Chat (m : Message)
| System (n : Notice).

Record View := mkView {
  isConnected : bool;
  messages : list Entry;
  users : list User;
  typingUsers : list string;
  currentRoom : string;
  privateTo : option User;
  unreadCounts : obj nat
}.

(** What a handler does besides updating the state. *)
Inductive Effect :=
| PlaySound                                   (* playNotificationSound() *)
| ShowNotification (title body : string)      (* showBrowserNotification(..) *)
| Emit (ev : Event).                          (* socket.emit(..) *)

(** A possibly null string used as a property name or inside a template
    string. *)
Definition as_text (x : option string) : string :=
  match x with Some s => s | None => "null" end.

Definition with_messages (v : View) (ms : list Entry) : View :=
  {| isConnected := isConnected v; messages := ms; users := users v;
     typingUsers := typingUsers v; currentRoom := currentRoom v;
     privateTo := privateTo v; unreadCounts := unreadCounts v |}.

Definition with_unread (v : View) (c : obj nat) : View :=
  {| isConnected := isConnected v; messages := messages v; users := users v;
     typingUsers := typingUsers v; currentRoom := currentRoom v;
     privateTo := privateTo v; unreadCounts := c |}.

(** [isCurrentRoom] of [handleReceiveMessage] *)
Definition isCurrentRoom (v : View) (msg : Message) : bool :=
  (negb (isPrivate msg) && bool_decide (msg_room msg = Some (currentRoom v)))
  || (isPrivate msg
      && bool_decide (user_id <$> privateTo v = Some (senderId msg))).

(** the counter a message that is not in view is counted under *)
Definition unread_key (msg : Message) : string :=
  if isPrivate msg then senderId msg else as_text (msg_room msg).

Definition notification_title (msg : Message) : string :=
  if isPrivate msg then "Private message from " +:+ sender msg
  else "New message in #" +:+ as_text (msg_room msg).

(** [handleReceiveMessage], also registered for ["private_message"].
    [prev[key] || 0] is the count stored under [key], or 0 when there is
    none; [key] is taken not to be a name that the counters object inherits
    from [Object.prototype]. *)
Definition handleReceiveMessage (msg : Message) (v : View)
    : View * list Effect :=
  let v1 := with_messages v (messages v ++ [Chat msg]) in
  if isCurrentRoom v msg then (v1, [PlaySound])
  else
    let key := unread_key msg in
    (with_unread v1
       (set key (default 0%nat (get (unreadCounts v) key) + 1)%nat
          (unreadCounts v)),
     [PlaySound; ShowNotification (notification_title msg) (message msg)]).

(** [handleRoomMessages] *)
Definition handleRoomMessages (msgs : list Message) (v : View) : View :=
  with_messages v (map Chat msgs).




(** [joinRoom] *)
Definition joinRoom (roomName : string) (v : View) : View * list Effect :=
  ({| isConnected := isConnected v; messages := messages v; users := users v;
      typingUsers := typingUsers v; currentRoom := roomName;
      privateTo := None;
      unreadCounts := set roomName 0%nat (unreadCounts v) |},
   [Emit (join_room roomName)]).

(** [selectPrivate]; with no user the counter reset is the one named
    ["undefined"]. *)
Definition selectPrivate (user : option User) (v : View) : View :=
  {| isConnected := isConnected v; messages := messages v; users := users v;
     typingUsers := typingUsers v; currentRoom := currentRoom v;
     privateTo := user;
     unreadCounts :=
       set (match user with Some u => user_id u | None => "undefined" end)
         0%nat (unreadCounts v) |}.

(** *** App.jsx *)

Record App := mkApp {
  hook : View;
  selectedRoom : option string;
  searchQuery : string
}.

Definition with_hook (a : App) (v : View) : App :=
  {| hook := v; selectedRoom := selectedRoom a; searchQuery := searchQuery a |}.

(** [totalUnread] *)
Definition totalUnread (v : View) : nat :=
  sum_list (values (unreadCounts v)).

(** [handleSelectRoom] *)
Definition handleSelectRoom (room : string) (a : App) : App * list Effect :=
  let '(v, effects) := joinRoom room (selectPrivate None (hook a)) in
  ({| hook := v; selectedRoom := Some room; searchQuery := searchQuery a |},
   effects).

(** The first filter of [displayedMessages]: the conversation in view.  A
    notice has neither [isPrivate] nor [room]; no message has a
    [receiverId]. *)
Definition in_conversation (a : App) (e : Entry) : bool :=
  match e with
  | Chat m =>
      if isPrivate m then
        match privateTo (hook a) with
        | None => false
        | Some p => bool_decide (senderId m = user_id p)
        end
      else bool_decide (msg_room m = selectedRoom a)
  | System _ => false
  end.

(** A [filter] whose callback may throw. *)
Fixpoint filter_throwing {A} (p : A → option bool) (l : list A)
    : option (list A) :=
  match l with
  | [] => Some []
  | x :: l' =>
      match p x with
      | None => None
      | Some b =>
          match filter_throwing p l' with
          | None => None
          | Some r => Some (if b then x :: r else r)
          end
      end
  end.

Section Search.

(** [a.toLowerCase().includes(b.toLowerCase())] *)
Variable includes_ci : string → string → bool.

(** The second filter of [displayedMessages]; [None] is the [TypeError]
    raised by [m.sender.toLowerCase()] on an entry without a sender. *)
Definition matches_search (q : string) (e : Entry) : option bool :=
  if decide (q = "") then Some true
  else
    match e with
    | Chat m => Some (includes_ci (message m) q || includes_ci (sender m) q)
    | System n => if includes_ci (notice_text n) q then Some true else None
    end.

(** [displayedMessages] *)
Definition displayedMessages (a : App) : option (list Entry) :=
  filter_throwing (matches_search (searchQuery a))
    (List.filter (in_conversation a) (messages (hook a))).

(** What decides whether an entry is shown. *)
Definition shown (a : App) (e : Entry) : bool :=
  match e with
  | Chat m =>
      in_conversation a e
      && (bool_decide (searchQuery a = "")
          || includes_ci (message m) (searchQuery a)
          || includes_ci (sender m) (searchQuery a))
  | System _ => false
  end.

End Search.

End Hook.

(** Sample runs. *)
Module Sample.

Definition input (n : Z) (sid : string) (ev : Event) : Input :=
  {| in_clock := at_time n; in_sid := sid; in_event := ev |}.

(** ann on socket s1 and bob on socket s2 have joined. *)
Definition two_joined : list Input :=
  [ input 1 "s1" connection; input 2 "s1" (user_join "ann");
    input 3 "s2" connection; input 4 "s2" (user_join "bob") ].

(** ann sends two messages within the same millisecond. *)
Definition same_millisecond : list Input :=
  two_joined ++ [ input 5 "s1" (send_message "a");
                  input 5 "s1" (send_message "b") ].

(** the first of the two, as [createMessage] built it *)
Definition first_message : Message :=
  createMessage (at_time 5)
    (mkData "ann" "s1" (Some "a") (Some "global") None None None).

(** bob then marks the message(s) with id 5 as read. *)
Definition bob_reads_5 : Outcome :=
  step (at_time 9) "s2" (read_message 5) (run same_millisecond init).

(** carol joins on socket s3; bob, then carol, mark message 5 as read. *)
Definition read_by_bob_and_carol : list Input :=
  same_millisecond ++ [ input 9 "s3" connection;
                        input 9 "s3" (user_join "carol");
                        input 10 "s2" (read_message 5);
                        input 11 "s3" (read_message 5) ].

(** ann moves to a room named "constructor". *)
Definition ann_in_constructor : list Input :=
  two_joined ++ [ input 5 "s1" (join_room "constructor") ].

(** A third socket connects and, without ever joining, reacts to ann's
    message. *)
Definition stranger_connected : list Input :=
  two_joined ++ [ input 5 "s1" (send_message "a");
                  input 6 "s3" connection ].

Definition stranger_reacts : Outcome :=
  step (at_time 7) "s3" (react_message 5 "like")
    (run stranger_connected init).

(** ann sends three messages, then asks for those older than the last. *)
Definition three_sent : list Input :=
  two_joined ++ [ input 5 "s1" (send_message "a");
                  input 6 "s1" (send_message "b");
                  input 7 "s1" (send_message "c") ].

(** eve, on socket s3, joins the room named by bob's socket id. *)
Definition eavesdropper : list Input :=
  two_joined ++ [ input 5 "s3" connection;
                  input 6 "s3" (user_join "eve");
                  input 7 "s3" (join_room "s2") ].

(** ann is marked as typing (her connection drops next). *)
Definition typing_then_gone : list Input :=
  two_joined ++ [ input 5 "s1" (typing true) ].

(** ann moves from "global" to "tech". *)
Definition ann_switches : list Input :=
  two_joined ++ [ input 5 "s1" (join_room "tech") ].

(** ann joins a second time after having moved to "tech". *)
Definition ann_rejoins : list Input :=
  ann_switches ++ [ input 6 "s1" (user_join "ann") ].


(** ann (in "tech") and bob (in "global") each send a message within the
    same millisecond. *)
Definition same_id_two_rooms : list Input :=
  ann_switches ++ [ input 6 "s1" (send_message "a");
                    input 6 "s2" (send_message "b") ].


(** ann reacts to the id both rooms hold. *)
Definition ann_reacts_6 : Outcome :=
  step (at_time 9) "s1" (react_message 6 "like")
    (run same_id_two_rooms init).


(** A client that shows room "global" and has counted two unread messages
    for "tech". *)
Definition client_in_global : Hook.View :=
  {| Hook.isConnected := true; Hook.messages := []; Hook.users := [];
     Hook.typingUsers := []; Hook.currentRoom := "global";
     Hook.privateTo := None; Hook.unreadCounts := [("tech", 2%nat)] |}.

End Sample.

(* ================================================================== *)
(** * Properties *)

(** ** Facts about objects used as dictionaries *)

Section JsObjFacts.
Context {V : Type}.
Implicit Types (o : obj V) (k : string) (v : V).

Lemma get_None_keys o k : get o k = None ↔ k ∉ keys o.
Proof.
  induction o as [|[k' v'] o IH]; simpl.
  - split; [intros _; apply not_elem_of_nil | done].
  - destruct (decide (k = k')) as [->|Hne].
    + split; [discriminate | intros H; destruct H; left].
    + rewrite IH, not_elem_of_cons. tauto.
Qed.

Lemma get_update_ne k k' v o : k ≠ k' → get (update k v o) k' = get o k'.
Proof.
  intros Hne. induction o as [|[k0 v0] o IH]; simpl; [done|].
  destruct (decide (k = k0)) as [->|]; simpl.
  - destruct (decide (k' = k0)); [congruence | done].
  - destruct (decide (k' = k0)); [done | apply IH].
Qed.

Lemma get_update_eq k v o : has o k = true → get (update k v o) k = Some v.
Proof.
  unfold has. induction o as [|[k0 v0] o IH]; simpl; [done|].
  destruct (decide (k = k0)) as [->|Hne]; simpl.
  - intros _. by rewrite decide_True.
  - intros H. rewrite decide_False by done. by apply IH.
Qed.

Lemma get_create_ne k k' v o : k ≠ k' → get (create k v o) k' = get o k'.
Proof.
  intros Hne. induction o as [|[k0 v0] o IH]; simpl.
  - by rewrite decide_False.
  - destruct (key_before k k0); simpl.
    + by rewrite (decide_False (P := k' = k)).
    + destruct (decide (k' = k0)); [done | apply IH].
Qed.

Lemma get_create_eq k v o : has o k = false → get (create k v o) k = Some v.
Proof.
  unfold has. induction o as [|[k0 v0] o IH]; simpl.
  - intros _. by rewrite decide_True.
  - destruct (decide (k = k0)) as [->|Hne]; [done|]. intros H.
    destruct (key_before k k0); simpl.
    + by rewrite decide_True.
    + rewrite decide_False by done. by apply IH.
Qed.

Lemma get_set k k' v o :
  get (set k v o) k' = if decide (k = k') then Some v else get o k'.
Proof.
  unfold set. destruct (has o k) eqn:Hk.
  - destruct (decide (k = k')) as [<-|Hne].
    + by apply get_update_eq.
    + by apply get_update_ne.
  - destruct (decide (k = k')) as [<-|Hne].
    + by apply get_create_eq.
    + by apply get_create_ne.
Qed.

Lemma get_remove k k' o :
  get (remove k o) k' = if decide (k = k') then None else get o k'.
Proof.
  induction o as [|[k0 v0] o IH]; simpl.
  - by destruct (decide (k = k')).
  - destruct (decide (k = k0)) as [->|Hne]; simpl; rewrite IH;
      repeat case_decide; congruence.
Qed.

Lemma update_absent k v o : get o k = None → update k v o = o.
Proof.
  induction o as [|[k0 v0] o IH]; simpl; [done|].
  destruct (decide (k = k0)); [done|]. intros H. by rewrite IH.
Qed.

Lemma get_Some_elem o k v : get o k = Some v → (k, v) ∈ o.
Proof.
  induction o as [|[k0 v0] o IH]; simpl; [done|].
  destruct (decide (k = k0)) as [->|].
  - intros [= ->]. left.
  - intros H. right. by apply IH.
Qed.

Lemma Forall_update (P : string * V → Prop) k v o :
  P (k, v) → Forall P o → Forall P (update k v o).
Proof.
  intros Hk. induction 1 as [|[k0 v0] o Hx Ho IH]; simpl; [constructor|].
  destruct (decide (k = k0)); constructor; auto.
Qed.

Lemma Forall_create (P : string * V → Prop) k v o :
  P (k, v) → Forall P o → Forall P (create k v o).
Proof.
  intros Hk. induction 1 as [|[k0 v0] o Hx Ho IH]; simpl.
  - by constructor.
  - destruct (key_before k k0); repeat constructor; auto.
Qed.

Lemma Forall_set (P : string * V → Prop) k v o :
  P (k, v) → Forall P o → Forall P (set k v o).
Proof.
  intros. unfold set. destruct (has o k);
    auto using Forall_update, Forall_create.
Qed.

Lemma Forall_remove (P : string * V → Prop) k o :
  Forall P o → Forall P (remove k o).
Proof.
  induction 1 as [|[k0 v0] o Hx Ho IH]; simpl; [constructor|].
  destruct (decide (k = k0)); [done | by constructor].
Qed.

Lemma get_update k k' v o :
  get (update k v o) k'
  = if decide (k = k') then (λ _, v) <$> get o k else get o k'.
Proof.
  destruct (decide (k = k')) as [<-|Hne]; [|by apply get_update_ne].
  destruct (get o k) eqn:Hk; simpl.
  - apply get_update_eq. unfold has. by rewrite Hk.
  - by rewrite update_absent.
Qed.

End JsObjFacts.

(** ** Message construction *)

Lemma createMessage_id clk data : msg_id (createMessage clk data) = date_now clk.
Proof. reflexivity. Qed.

Lemma createMessage_room clk data :
  msg_room (createMessage clk data) = Some (js_or (d_room data) "global").
Proof. reflexivity. Qed.

(** C9, as stated, fails: the message built for a private send has
    [isPrivate] true and a room field that is not null. *)
Lemma private_message_room_not_null :
  ∃ m, emitted (step (at_time 7) "s1" (private_message "s2" "hi")
                  (run Sample.two_joined init))
       = [ (InRoomExcept "s2" "s1", private_message_to_client m);
           (Self "s1", private_message_to_client m) ]
       ∧ isPrivate m = true ∧ msg_room m ≠ None.
Proof. eexists. split; [vm_compute; reflexivity |]. split; [reflexivity | discriminate]. Qed.

(** C9 (amended): the message a registered session sends privately is built
    with [isPrivate] true and with the default room name ["global"] in its
    room field. *)
Theorem private_message_room_global clk sid to text σ user :
  connected σ sid = true →
  get (users σ) sid = Some user →
  ∃ m, emitted (step clk sid (private_message to text) σ)
       = [ (InRoomExcept to sid, private_message_to_client m);
           (Self sid, private_message_to_client m) ]
       ∧ isPrivate m = true ∧ msg_room m = Some "global".
Proof.
  intros Hc Hu. simpl. rewrite Hc. unfold on_private_message. rewrite Hu.
  eexists. split; [reflexivity |]. split; reflexivity.
Qed.

(** ann's private message to bob, after both have joined. *)
Lemma private_message_room_global_witness :
  ∃ m, emitted (step (at_time 7) "s1" (private_message "s2" "hi")
                  (run Sample.two_joined init))
       = [ (InRoomExcept "s2" "s1", private_message_to_client m);
           (Self "s1", private_message_to_client m) ]
       ∧ isPrivate m = true ∧ msg_room m = Some "global".
Proof.
  apply (private_message_room_global (at_time 7) "s1" "s2" "hi"
           (run Sample.two_joined init) (mkUser "ann" "s1" "global"));
    vm_compute; reflexivity.
Defined.

(** ** How the logs evolve *)

Lemma msg_grows_refl m : msg_grows m m.
Proof. unfold msg_grows. repeat split; reflexivity. Qed.

Lemma msg_grows_trans m1 m2 m3 :
  msg_grows m1 m2 → msg_grows m2 m3 → msg_grows m1 m3.
Proof.
  unfold msg_grows.
  intros (?&?&?&?&?&?&?&?&?&?&?) (?&?&?&?&?&?&?&?&?&?&?).
  repeat split; try congruence; etrans; eassumption.
Qed.

Lemma log_grows_refl l : Forall2 msg_grows l l.
Proof. induction l; constructor; auto using msg_grows_refl. Qed.

Lemma log_grows_trans l1 l2 l3 :
  Forall2 msg_grows l1 l2 → Forall2 msg_grows l2 l3 → Forall2 msg_grows l1 l3.
Proof.
  intros H. revert l3. induction H; intros l3 H3; inversion H3; subst;
    constructor; eauto using msg_grows_trans.
Qed.

Lemma push_reaction_grows x m : msg_grows m (push_reaction x m).
Proof.
  unfold msg_grows, push_reaction; simpl.
  repeat split; try reflexivity. by apply prefix_app_r.
Qed.

Lemma push_reader_grows name m : msg_grows m (push_reader name m).
Proof.
  unfold msg_grows, push_reader; simpl.
  repeat split; try reflexivity. by apply prefix_app_r.
Qed.

Lemma update_first_grows p f l :
  (∀ m, msg_grows m (f m)) → Forall2 msg_grows l (update_first p f l).
Proof.
  intros Hf. induction l as [|m l IH]; simpl; [constructor|].
  destruct (p m); constructor; auto using msg_grows_refl, log_grows_refl.
Qed.

Lemma log_extends_refl P l : log_extends P l l.
Proof.
  exists l, []. rewrite app_nil_r. auto using log_grows_refl.
Qed.

Lemma log_extends_grown P l l' : Forall2 msg_grows l l' → log_extends P l l'.
Proof. intros H. exists l', []. rewrite app_nil_r. auto. Qed.

Lemma log_extends_push (P : Message → Prop) l m : P m → log_extends P l (l ++ [m]).
Proof. intros H. exists l, [m]. auto using log_grows_refl. Qed.

Lemma obj_rel_refl {V} (R : V → V → Prop) (o : obj V) :
  (∀ v, R v v) → obj_rel R o o.
Proof. intros HR. induction o; constructor; auto. Qed.

Lemma obj_rel_get {V} (R : V → V → Prop) (o o' : obj V) k :
  obj_rel R o o' → option_Forall2 R (get o k) (get o' k).
Proof.
  induction 1 as [|[k1 v1] [k2 v2] o o' [Hk Hv] _ IH]; simpl in *.
  - constructor.
  - subst k2. destruct (decide (k = k1)); [by constructor | apply IH].
Qed.

Lemma react_rooms_rel sid messageId r rs :
  obj_rel (Forall2 msg_grows) rs (react_rooms sid messageId r rs).1.
Proof.
  induction rs as [|[room log] rest IH]; simpl; [constructor|].
  destruct (find (has_id messageId) log).
  - constructor.
    + split; [done|]. apply update_first_grows, push_reaction_grows.
    + apply obj_rel_refl, log_grows_refl.
  - destruct (react_rooms sid messageId r rest) as [rest' es]. simpl in *.
    constructor; [split; [done | apply log_grows_refl] | done].
Qed.

Lemma read_log_grows name messageId log :
  Forall2 msg_grows log (read_log name messageId log).1.
Proof.
  unfold read_log. destruct (find (has_id messageId) log) as [msg|]; simpl.
  - destruct (decide (name ∈ readers msg)); simpl.
    + apply log_grows_refl.
    + apply update_first_grows, push_reader_grows.
  - apply log_grows_refl.
Qed.

Lemma read_rooms_rel name messageId rs :
  obj_rel (Forall2 msg_grows) rs (read_rooms name messageId rs).1.
Proof.
  induction rs as [|[room log] rest IH]; simpl; [constructor|].
  destruct (read_rooms name messageId rest) as [rest' es]. simpl in *.
  pose proof (read_log_grows name messageId log) as Hl.
  destruct (read_log name messageId log) as [log' [rds|]]; simpl in *;
    constructor; auto.
Qed.

(** A dictionary related to the old one keeps its rooms and grows its logs. *)
Lemma obj_rel_logs P (rs rs' : obj (list Message)) k :
  obj_rel (Forall2 msg_grows) rs rs' →
  (has rs k = true → has rs' k = true) ∧
  log_extends P (default [] (get rs k)) (default [] (get rs' k)).
Proof.
  intros H. pose proof (obj_rel_get _ _ _ k H) as Hk. unfold has.
  destruct Hk as [l l' Hl|]; simpl.
  - split; [done | by apply log_extends_grown].
  - split; [done | apply log_extends_refl].
Qed.

(** Case analysis on whether the push of a handler throws. *)
Ltac push_cases :=
  unfold push_message;
  destruct (negb (has _ _) && inherited _) eqn:?; simpl.

Lemma push_message_logs (P : Message → Prop) r m rs k :
  P m →
  (has rs k = true → has (append_log r m rs) k = true) ∧
  log_extends P (default [] (get rs k)) (default [] (get (append_log r m rs) k)).
Proof.
  intros Hm. unfold append_log, has. rewrite get_set.
  destruct (decide (r = k)) as [->|Hne]; simpl.
  - split; [done | by apply log_extends_push].
  - split; [done | apply log_extends_refl].
Qed.

(** One event: no room disappears, and every log keeps its messages (possibly
    grown) and gains only messages whose id is the clock reading. *)
Lemma step_logs clk sid ev σ r :
  (has (rooms σ) r = true → has (rooms (next (step clk sid ev σ))) r = true) ∧
  log_extends (λ m, msg_id m = date_now clk)
    (room_log σ r) (room_log (next (step clk sid ev σ)) r).
Proof.
  unfold room_log.
  assert (Hsame : (has (rooms σ) r = true → has (rooms σ) r = true) ∧
    log_extends (λ m, msg_id m = date_now clk)
      (default [] (get (rooms σ) r)) (default [] (get (rooms σ) r))).
  { split; [done | apply log_extends_refl]. }
  destruct ev; simpl; destruct (connected σ sid); simpl; try exact Hsame.
  - unfold on_join_room. destruct (get (users σ) sid); simpl; [|exact Hsame].
    destruct (has (rooms σ) roomName) eqn:Hr; [exact Hsame|].
    destruct (inherited roomName); [exact Hsame|].
    unfold has in *. rewrite get_set.
    destruct (decide (roomName = r)) as [->|]; [|exact Hsame].
    destruct (get (rooms σ) r); [done|]. simpl.
    split; [done | apply log_extends_refl].
  - unfold on_send_message. destruct (get (users σ) sid); simpl; [|exact Hsame].
    push_cases; [exact Hsame|]. by apply push_message_logs.
  - unfold on_private_message. by destruct (get (users σ) sid).
  - unfold on_send_file. destruct (get (users σ) sid); simpl; [|exact Hsame].
    push_cases; [exact Hsame|]. by apply push_message_logs.
  - unfold on_typing. by destruct (get (users σ) sid).
  - unfold on_react_message.
    pose proof (react_rooms_rel sid messageId r0 (rooms σ)) as H.
    destruct (react_rooms sid messageId r0 (rooms σ)) as [rooms' es]. simpl in *.
    by apply obj_rel_logs.
  - unfold on_read_message. destruct (get (users σ) sid) as [u|]; simpl; [|exact Hsame].
    pose proof (read_rooms_rel (username u) messageId (rooms σ)) as H.
    destruct (read_rooms (username u) messageId (rooms σ)) as [rooms' es].
    simpl in *. by apply obj_rel_logs.
  - unfold on_disconnect. simpl. by destruct (get (users σ) sid).
Qed.

(** ** Message ids *)





Lemma run_ids_from_clock tr : ∀ σ r m,
  m ∈ room_log (run tr σ) r →
  (∃ m0, m0 ∈ room_log σ r ∧ msg_id m0 = msg_id m) ∨
  msg_id m ∈ clock_readings tr.
Proof.
  induction tr as [|i tr IH]; intros σ r m Hm; simpl in *; [left; eauto|].
  destruct (IH _ _ _ Hm) as [(m1 & Hm1 & Hid)|Hc]; [|right; by right].
  destruct (step_logs (in_clock i) (in_sid i) (in_event i) σ r)
    as [_ (pre & ext & Heq & Hpre & Hext)].
  unfold step_in in Hm1. rewrite Heq in Hm1.
  apply elem_of_app in Hm1 as [Hin|Hin].
  - left. apply list_elem_of_lookup in Hin as [n Hn].
    destruct (Forall2_lookup_r _ _ _ _ _ Hpre Hn) as (m0 & Hm0 & Hg).
    exists m0. split; [eapply list_elem_of_lookup_2, Hm0|].
    destruct Hg as [Hg _]. congruence.
  - right. rewrite Forall_forall in Hext. rewrite <- Hid, (Hext _ Hin). left.
Qed.






(** ** Messages already in a log *)

Lemma run_logs tr : ∀ σ r,
  (has (rooms σ) r = true → has (rooms (run tr σ)) r = true) ∧
  log_extends (λ _, True) (room_log σ r) (room_log (run tr σ) r).
Proof.
  induction tr as [|i tr IH]; intros σ r; simpl.
  - split; [done | apply log_extends_refl].
  - destruct (IH (next (step_in i σ)) r) as [Hh (pre2 & ext2 & E2 & G2 & _)].
    destruct (step_logs (in_clock i) (in_sid i) (in_event i) σ r)
      as [Hh1 (pre1 & ext1 & E1 & G1 & _)].
    split; [intros H; apply Hh, Hh1, H|].
    unfold step_in in *. rewrite E1 in G2.
    apply Forall2_app_inv_l in G2 as (pre2a & pre2b & Ga & Gb & ->).
    exists pre2a, (pre2b ++ ext2). rewrite E2, <- app_assoc.
    split; [done|]. split; [|by apply Forall_true].
    eapply log_grows_trans; eauto.
Qed.

(** C6: a message that is in a room's log stays at its position in that log
    through every later sequence of events, with the same id, sender, content,
    timestamp, room, privacy flag and attachment; its reactions and readers
    are extensions of what they were. *)
Theorem logged_message_fields_frozen tr σ r n m :
  room_log σ r !! n = Some m →
  ∃ m', room_log (run tr σ) r !! n = Some m' ∧
        msg_id m' = msg_id m ∧ msg_room m' = msg_room m ∧
        isPrivate m' = isPrivate m ∧ timestamp m' = timestamp m ∧
        message m' = message m ∧ fileData m' = fileData m ∧
        fileName m' = fileName m ∧ sender m' = sender m ∧
        senderId m' = senderId m ∧
        reactions m `prefix_of` reactions m' ∧
        readers m `prefix_of` readers m'.
Proof.
  intros Hn.
  destruct (run_logs tr σ r) as [_ (pre & ext & E & G & _)].
  destruct (Forall2_lookup_l _ _ _ _ _ G Hn) as (m' & Hm' & Hg).
  exists m'. split.
  - rewrite E. by apply lookup_app_l_Some.
  - unfold msg_grows in Hg. tauto.
Qed.

(** ann's first message, before and after bob's read receipt. *)
Lemma logged_message_fields_frozen_witness :
  ∃ m', room_log (run [Sample.input 9 "s2" (read_message 5)]
                    (run Sample.same_millisecond init)) "global" !! 0%nat
        = Some m' ∧
        msg_id m' = msg_id Sample.first_message ∧
        msg_room m' = msg_room Sample.first_message ∧
        isPrivate m' = isPrivate Sample.first_message ∧
        timestamp m' = timestamp Sample.first_message ∧
        message m' = message Sample.first_message ∧
        fileData m' = fileData Sample.first_message ∧
        fileName m' = fileName Sample.first_message ∧
        sender m' = sender Sample.first_message ∧
        senderId m' = senderId Sample.first_message ∧
        reactions Sample.first_message `prefix_of` reactions m' ∧
        readers Sample.first_message `prefix_of` readers m'.
Proof.
  refine (logged_message_fields_frozen _ _ _ _ _ _).
  vm_compute. reflexivity.
Defined.

(** ** Read receipts *)

Lemma find_update_first p f l m :
  find p l = Some m → p (f m) = true →
  find p (update_first p f l) = Some (f m).
Proof.
  intros Hfind Hp. induction l as [|x l IH]; simpl in *; [done|].
  destruct (p x) eqn:Hx; simpl.
  - simplify_eq. by rewrite Hp.
  - rewrite Hx. by apply IH.
Qed.

Lemma read_log_again name messageId log :
  read_log name messageId (read_log name messageId log).1
  = ((read_log name messageId log).1, None).
Proof.
  unfold read_log at 2 3.
  destruct (find (has_id messageId) log) as [msg|] eqn:Hfind; simpl.
  - destruct (decide (name ∈ readers msg)) as [Hin|Hnin]; simpl.
    + unfold read_log. rewrite Hfind. by rewrite decide_True.
    + unfold read_log.
      rewrite (find_update_first _ _ _ msg Hfind).
      * rewrite decide_True; [done|]. simpl. apply elem_of_app. right. left.
      * apply find_some in Hfind as [_ Hid]. exact Hid.
  - unfold read_log. by rewrite Hfind.
Qed.

Lemma read_rooms_again name messageId rs :
  read_rooms name messageId (read_rooms name messageId rs).1
  = ((read_rooms name messageId rs).1, []).
Proof.
  induction rs as [|[room log] rest IH]; simpl; [done|].
  destruct (read_rooms name messageId rest) as [rest' es] eqn:Hrest.
  simpl in IH.
  pose proof (read_log_again name messageId log) as Hlog.
  destruct (read_log name messageId log) as [log' [rds|]] eqn:Hl; simpl in *;
    by rewrite IH, Hlog.
Qed.

Lemma read_log_present name messageId log msg :
  find (has_id messageId) log = Some msg → name ∈ readers msg →
  read_log name messageId log = (log, None).
Proof.
  intros Hfind Hin. unfold read_log. rewrite Hfind. by rewrite decide_True.
Qed.

Lemma read_rooms_present name messageId rs :
  Forall (λ kv : string * list Message,
            ∀ msg, find (has_id messageId) kv.2 = Some msg →
                   name ∈ readers msg) rs →
  read_rooms name messageId rs = (rs, []).
Proof.
  induction 1 as [|[room log] rest Hlog _ IH]; simpl; [done|].
  rewrite IH. simpl in Hlog.
  destruct (find (has_id messageId) log) as [msg|] eqn:Hfind.
  - by rewrite (read_log_present _ _ _ msg Hfind (Hlog msg eq_refl)).
  - unfold read_log. by rewrite Hfind.
Qed.

(** C7: marking a message as read is idempotent.  (1) A second receipt for
    the same message from the same session changes nothing: the state after
    the second event is the state after the first (so every [readers] list
    has the same content and size), and the second event emits nothing.
    (2) In any log, when the message found for the id already lists the
    reader, wherever in its list, the log is left as it is and no reader
    list is announced.  (3) From any state in which every room's message
    with that id already lists the session's name, the receipt is a no-op:
    same state, nothing emitted. *)
Theorem markRead_idempotent clk clk' sid messageId σ :
  step clk' sid (read_message messageId)
    (next (step clk sid (read_message messageId) σ))
  = silent (next (step clk sid (read_message messageId) σ)) ∧
  (∀ name log msg,
     find (has_id messageId) log = Some msg → name ∈ readers msg →
     read_log name messageId log = (log, None)) ∧
  (∀ u, get (users σ) sid = Some u →
     Forall (λ kv : string * list Message,
               ∀ msg, find (has_id messageId) kv.2 = Some msg →
                      username u ∈ readers msg) (rooms σ) →
     step clk sid (read_message messageId) σ = silent σ).
Proof.
  split; [|split].
  - simpl. destruct (connected σ sid) eqn:Hc; simpl; [|by rewrite Hc].
    unfold on_read_message.
    destruct (get (users σ) sid) as [u|] eqn:Hu; simpl.
    + pose proof (read_rooms_again (username u) messageId (rooms σ)) as H.
      destruct (read_rooms (username u) messageId (rooms σ)) as [rooms' es].
      simpl in *. unfold connected in *. simpl. rewrite Hc, Hu, H.
      reflexivity.
    + by rewrite Hc, Hu.
  - intros name log msg. apply read_log_present.
  - intros u Hu Hall. simpl. destruct (connected σ sid); [|done].
    unfold on_read_message. rewrite Hu.
    rewrite (read_rooms_present _ _ _ Hall). unfold silent. by destruct σ.
Qed.

(** Message 5 has been read by bob, then by carol; bob's name is the first of
    the two readers.  A further receipt from bob changes nothing. *)
Lemma markRead_idempotent_witness :
  map readers (room_log (run Sample.read_by_bob_and_carol init) "global")
    = [["bob"; "carol"]; []] ∧
  read_log "bob" 5 (room_log (run Sample.read_by_bob_and_carol init) "global")
    = (room_log (run Sample.read_by_bob_and_carol init) "global", None) ∧
  step (at_time 12) "s2" (read_message 5)
    (run Sample.read_by_bob_and_carol init)
  = silent (run Sample.read_by_bob_and_carol init).
Proof.
  split; [vm_compute; reflexivity|].
  destruct (markRead_idempotent (at_time 12) (at_time 12) "s2" 5
              (run Sample.read_by_bob_and_carol init)) as (_ & Hlog & Hstep).
  split.
  - refine (Hlog "bob" _ (push_reader "carol"
                            (push_reader "bob" Sample.first_message)) _ _).
    + vm_compute; reflexivity.
    + vm_compute. left.
  - refine (Hstep (mkUser "bob" "s2" "global") _ _).
    + vm_compute; reflexivity.
    + vm_compute. constructor; [|constructor].
      intros msg Hm. vm_compute in Hm. injection Hm as <-. left.
Defined.

Lemma read_rooms_get name messageId rs r :
  get (read_rooms name messageId rs).1 r
  = (λ l, (read_log name messageId l).1) <$> get rs r.
Proof.
  induction rs as [|[room log] rest IH]; simpl; [done|].
  destruct (read_rooms name messageId rest) as [rest' es]. simpl in IH.
  destruct (read_log name messageId log) as [log' [rds|]] eqn:Hl; simpl;
    destruct (decide (r = room)); simpl; rewrite ?Hl; auto.
Qed.

Lemma read_rooms_emits name messageId rs r log rds :
  get rs r = Some log →
  (read_log name messageId log).2 = Some rds →
  (InRoom r, message_read messageId rds) ∈ (read_rooms name messageId rs).2.
Proof.
  induction rs as [|[room l] rest IH]; simpl; [done|].
  destruct (read_rooms name messageId rest) as [rest' es]. simpl in IH.
  destruct (decide (r = room)) as [->|Hne].
  - intros [= ->] Hl. destruct (read_log name messageId log) as [log' o].
    simpl in Hl. subst o. simpl. left.
  - intros Hr Hl. specialize (IH Hr Hl).
    destruct (read_log name messageId l) as [l' [rds'|]]; simpl; [by right | done].
Qed.

Lemma find_at_first (p : Message → bool) l n m :
  l !! n = Some m → p m = true →
  (∀ k m', (k < n)%nat → l !! k = Some m' → p m' = false) →
  find p l = Some m ∧ ∀ f, update_first p f l = <[n := f m]> l.
Proof.
  revert n. induction l as [|x l IH]; intros n Hn Hp Hbefore; [done|].
  destruct n as [|n]; simpl in *.
  - simplify_eq. by rewrite Hp.
  - rewrite (Hbefore 0%nat x) by (done || lia).
    destruct (IH n Hn Hp) as [Hf Hu].
    + intros k m' Hk Hm'. apply (Hbefore (S k) m'); [lia | done].
    + split; [done|]. intros f. by rewrite Hu.
Qed.

(** C10, as stated, fails: two messages of one room share the id 5; bob's
    read receipt for id 5 reaches the first of them only, although his name
    is absent from the readers of the second. *)
Lemma read_receipt_skips_later_duplicate :
  map msg_id (room_log (run Sample.same_millisecond init) "global") = [5; 5] ∧
  map readers (room_log (next Sample.bob_reads_5) "global") = [["bob"]; []] ∧
  emitted Sample.bob_reads_5 = [(InRoom "global", message_read 5 ["bob"])].
Proof. repeat split; vm_compute; reflexivity. Qed.

(** C10 (amended): a read receipt from a registered session is applied in
    every room, not in one located room: in each room whose log holds a
    message with the given id, the first such message gets the reader's name
    appended when it is absent (that message only; the rest of the log is
    unchanged), and a read-receipt notification with the new reader list is
    emitted to that room. *)
Theorem read_receipt_marks_first_in_each_room clk sid messageId σ u r log n msg :
  connected σ sid = true →
  get (users σ) sid = Some u →
  get (rooms σ) r = Some log →
  log !! n = Some msg →
  msg_id msg = messageId →
  (∀ k m', (k < n)%nat → log !! k = Some m' → msg_id m' ≠ messageId) →
  username u ∉ readers msg →
  get (rooms (next (step clk sid (read_message messageId) σ))) r
    = Some (<[n := push_reader (username u) msg]> log) ∧
  (InRoom r, message_read messageId (readers msg ++ [username u]))
    ∈ emitted (step clk sid (read_message messageId) σ).
Proof.
  intros Hc Hu Hr Hn Hid Hbefore Hnin. simpl. rewrite Hc.
  unfold on_read_message. rewrite Hu.
  destruct (find_at_first (has_id messageId) log n msg Hn) as [Hfind Hupd].
  { unfold has_id. lia. }
  { intros k m' Hk Hm'. unfold has_id. specialize (Hbefore k m' Hk Hm'). lia. }
  assert (Hlog : read_log (username u) messageId log
                 = (<[n := push_reader (username u) msg]> log,
                    Some (readers msg ++ [username u]))).
  { unfold read_log. rewrite Hfind, decide_False by done. by rewrite Hupd. }
  pose proof (read_rooms_get (username u) messageId (rooms σ) r) as Hget.
  pose proof (read_rooms_emits (username u) messageId (rooms σ) r log
                (readers msg ++ [username u]) Hr) as Hem.
  destruct (read_rooms (username u) messageId (rooms σ)) as [rooms' es].
  simpl in *. rewrite Hget, Hr. simpl. rewrite Hlog. split; [done|].
  apply Hem. by rewrite Hlog.
Qed.

(** bob's read receipt for id 5 on the log that holds two messages with that
    id. *)
Lemma read_receipt_marks_first_in_each_room_witness :
  get (rooms (next (step (at_time 9) "s2" (read_message 5)
                      (run Sample.same_millisecond init)))) "global"
    = Some (<[0%nat := push_reader (username (mkUser "bob" "s2" "global"))
                         Sample.first_message]>
              [Sample.first_message;
               createMessage (at_time 5)
                 (mkData "ann" "s1" (Some "b") (Some "global") None None None)]) ∧
  (InRoom "global",
   message_read 5 (readers Sample.first_message
                   ++ [username (mkUser "bob" "s2" "global")]))
    ∈ emitted (step (at_time 9) "s2" (read_message 5)
                 (run Sample.same_millisecond init)).
Proof.
  refine (read_receipt_marks_first_in_each_room (at_time 9) "s2" 5
            (run Sample.same_millisecond init) (mkUser "bob" "s2" "global")
            "global" _ 0 Sample.first_message _ _ _ _ _ _ _).
  - vm_compute; reflexivity.
  - vm_compute; reflexivity.
  - vm_compute; reflexivity.
  - reflexivity.
  - reflexivity.
  - intros k m' Hk. lia.
  - vm_compute. intros H. inversion H.
Defined.

(** ** Events from a connection without a session *)

(** X7: room switch, room message, private message, file, typing toggle and
    read receipt are dropped when the connection has no session: the state
    stays as it is and nothing is emitted. *)
Lemma guarded_events_ignored clk sid ev σ :
  get (users σ) sid = None → guarded_by_session ev = true →
  step clk sid ev σ = silent σ.
Proof.
  intros Hu Hg. destruct ev; try discriminate; simpl;
    destruct (connected σ sid); try reflexivity.
  - unfold on_join_room. by rewrite Hu.
  - unfold on_send_message. by rewrite Hu.
  - unfold on_private_message. by rewrite Hu.
  - unfold on_send_file. by rewrite Hu.
  - unfold on_typing. by rewrite Hu.
  - unfold on_read_message. by rewrite Hu.
Qed.

(** C4 (the code departs from it): a reaction sent by a connection that has
    no session is not ignored.  Socket s3 is connected and has never joined;
    its reaction to message 5 is appended to the message in the log of room
    "global" and announced to that room. *)
Theorem reaction_from_sessionless_connection_applied :
  get (users (run Sample.stranger_connected init)) "s3" = None ∧
  connected (run Sample.stranger_connected init) "s3" = true ∧
  map reactions (room_log (run Sample.stranger_connected init) "global") = [[]] ∧
  map reactions (room_log (next Sample.stranger_reacts) "global")
    = [[ {| userId := "s3"; reaction := "like" |} ]] ∧
  emitted Sample.stranger_reacts = [(InRoom "global", message_reaction 5 "like")].
Proof. repeat split; vm_compute; reflexivity. Qed.

(** ** Requests for older messages *)

(** The server registers no listener for ["load_older_messages"]: the request
    changes nothing, emits nothing and is never acknowledged. *)
Lemma load_older_messages_dropped clk sid room privateToId oldestMessageId σ :
  step clk sid (load_older_messages room privateToId oldestMessageId) σ
  = silent σ.
Proof. simpl. by destruct (connected σ sid). Qed.

Lemma loadOlderMessages_no_page clk sid room privateToId oldestMessageId σ prev :
  Client.loadOlderMessages clk sid room privateToId oldestMessageId σ prev
  = (None, prev).
Proof.
  unfold Client.loadOlderMessages. by rewrite load_older_messages_dropped.
Qed.

(** C3 (the code departs from it): room "global" holds messages with ids 5, 6
    and 7; ann's client asks for the messages older than 7.  No page comes
    back: the acknowledgement callback is never called, the client's list
    stays as it was and the server state is untouched. *)
Theorem older_messages_request_unanswered :
  map msg_id (room_log (run Sample.three_sent init) "global") = [5; 6; 7] ∧
  (∀ prev, Client.loadOlderMessages (at_time 9) "s1" (Some "global") None
             (Some 7) (run Sample.three_sent init) prev = (None, prev)) ∧
  step (at_time 9) "s1" (load_older_messages (Some "global") None (Some 7))
    (run Sample.three_sent init)
  = silent (run Sample.three_sent init).
Proof.
  split; [vm_compute; reflexivity |].
  split; [intros prev; apply loadOlderMessages_no_page |].
  apply load_older_messages_dropped.
Qed.

(** ** Private messages *)

Lemma reached_private clk sid to text σ u :
  connected σ sid = true →
  get (users σ) sid = Some u →
  reached (step clk sid (private_message to text) σ)
  = {[ sid ]} ∪ (members (sids σ) to ∖ members (sids σ) sid).
Proof.
  intros Hc Hu. unfold reached, deliveries. simpl. rewrite Hc.
  unfold on_private_message. rewrite Hu. simpl.
  unfold connected in Hc. apply bool_decide_eq_true in Hc.
  apply set_eq. intros x.
  rewrite !elem_of_union, elem_of_intersection, elem_of_difference,
    !elem_of_singleton, elem_of_empty.
  split; [tauto|]. intros [->|?]; [|tauto]. tauto.
Qed.

(** C2, as stated, fails.  (1) eve's socket s3 has joined the room named by
    bob's socket id s2: ann's private message to s2 reaches three sessions.
    (2) A private message addressed to an id that no socket has reaches the
    sender alone. *)
Lemma private_message_not_exactly_two :
  reached (step (at_time 8) "s1" (private_message "s2" "secret")
             (run Sample.eavesdropper init)) = {[ "s1"; "s2"; "s3" ]} ∧
  reached (step (at_time 8) "s1" (private_message "s9" "secret")
             (run Sample.two_joined init)) = {[ "s1" ]}.
Proof. split; vm_compute; reflexivity. Qed.

(** C2 (amended): a private message from a registered session leaves the
    server state, so every room's log, as it was.  When the socket whose id
    is [to] is the only member of the socket.io room of that name and has not
    joined the room named by the sender's socket id, the message reaches
    exactly the sender and that recipient.  When no socket is in the room
    named [to], it reaches the sender alone. *)
Theorem private_message_delivery clk sid to text σ u :
  connected σ sid = true →
  get (users σ) sid = Some u →
  next (step clk sid (private_message to text) σ) = σ ∧
  (members (sids σ) to = {[ to ]} →
   to ∉ members (sids σ) sid →
   reached (step clk sid (private_message to text) σ) = {[ sid; to ]}) ∧
  (members (sids σ) to = ∅ →
   reached (step clk sid (private_message to text) σ) = {[ sid ]}).
Proof.
  intros Hc Hu. split; [|split].
  - simpl. rewrite Hc. unfold on_private_message. by rewrite Hu.
  - intros Hto Hnot. erewrite reached_private by eassumption. rewrite Hto.
    apply set_eq. intros x. rewrite !elem_of_union, elem_of_difference,
      !elem_of_singleton.
    split; [tauto|]. intros [->| ->]; [tauto|]. right. by split.
  - intros Hto. erewrite reached_private by eassumption. rewrite Hto.
    apply set_eq. intros x. rewrite !elem_of_union, elem_of_difference,
      !elem_of_singleton, elem_of_empty. tauto.
Qed.

(** ann writes to bob while bob's socket is alone in the room named by its
    id and is not in the room named by ann's; ann writes to an id that no
    socket has. *)
Lemma private_message_delivery_witness :
  next (step (at_time 8) "s1" (private_message "s2" "hi")
          (run Sample.two_joined init)) = run Sample.two_joined init ∧
  reached (step (at_time 8) "s1" (private_message "s2" "hi")
             (run Sample.two_joined init)) = {[ "s1"; "s2" ]} ∧
  reached (step (at_time 8) "s1" (private_message "s9" "hi")
             (run Sample.two_joined init)) = {[ "s1" ]}.
Proof.
  destruct (private_message_delivery (at_time 8) "s1" "s2" "hi"
              (run Sample.two_joined init) (mkUser "ann" "s1" "global"))
    as (Hst & Htwo & _).
  - vm_compute; reflexivity.
  - vm_compute; reflexivity.
  - destruct (private_message_delivery (at_time 8) "s1" "s9" "hi"
                (run Sample.two_joined init) (mkUser "ann" "s1" "global"))
      as (_ & _ & Hnone).
    + vm_compute; reflexivity.
    + vm_compute; reflexivity.
    + split; [exact Hst|]. split.
      * apply Htwo; [vm_compute; reflexivity|].
        replace (members (sids (run Sample.two_joined init)) "s1")
          with ({[ "s1" ]} : gset string) by (vm_compute; reflexivity).
        rewrite elem_of_singleton. discriminate.
      * apply Hnone. vm_compute; reflexivity.
Defined.

(** ** The adapter *)

Lemma elem_of_members (a : Adapter) r sid :
  sid ∈ members a r ↔ ∃ rs, a !! sid = Some rs ∧ r ∈ rs.
Proof.
  unfold members. rewrite elem_of_dom. unfold is_Some.
  setoid_rewrite map_lookup_filter_Some. simpl. reflexivity.
Qed.

Lemma dom_adapter_join sid r (a : Adapter) : dom (adapter_join sid r a) = dom a.
Proof. unfold adapter_join. apply dom_alter_L. Qed.

Lemma dom_adapter_leave sid r (a : Adapter) : dom (adapter_leave sid r a) = dom a.
Proof. unfold adapter_leave. apply dom_alter_L. Qed.

Lemma elem_of_members_join sid r (a : Adapter) x q :
  x ∈ members (adapter_join sid r a) q
  ↔ x ∈ members a q ∨ (x = sid ∧ q = r ∧ sid ∈ dom a).
Proof.
  rewrite !elem_of_members. unfold adapter_join. split.
  - intros (rs & Hrs & Hq). destruct (decide (x = sid)) as [->|Hx].
    + rewrite lookup_alter_eq in Hrs.
      destruct (a !! sid) as [rs0|] eqn:Ha; simpl in Hrs; [|done].
      injection Hrs as <-. apply elem_of_union in Hq as [Hq|Hq].
      * apply elem_of_singleton in Hq. right.
        repeat split; [done|]. apply elem_of_dom. by eexists.
      * left. by exists rs0.
    + rewrite lookup_alter_ne in Hrs by done. left. by exists rs.
  - intros [(rs & Hrs & Hq)|(-> & -> & [rs Hrs]%elem_of_dom)].
    + destruct (decide (x = sid)) as [->|Hx].
      * exists ({[ r ]} ∪ rs). rewrite lookup_alter_eq, Hrs. split; [done|].
        apply elem_of_union. by right.
      * exists rs. by rewrite lookup_alter_ne.
    + exists ({[ r ]} ∪ rs). rewrite lookup_alter_eq, Hrs. split; [done|].
      apply elem_of_union. left. by apply elem_of_singleton.
Qed.

Lemma elem_of_members_leave sid r (a : Adapter) x q :
  x ∈ members (adapter_leave sid r a) q
  ↔ x ∈ members a q ∧ ¬ (x = sid ∧ q = r).
Proof.
  rewrite !elem_of_members. unfold adapter_leave. split.
  - intros (rs & Hrs & Hq). destruct (decide (x = sid)) as [->|Hx].
    + rewrite lookup_alter_eq in Hrs.
      destruct (a !! sid) as [rs0|] eqn:Ha; simpl in Hrs; [|done].
      injection Hrs as <-. apply elem_of_difference in Hq as [Hq Hne].
      split; [by exists rs0|]. intros [_ ->]. apply Hne.
      by apply elem_of_singleton.
    + rewrite lookup_alter_ne in Hrs by done.
      split; [by exists rs|]. by intros [? _].
  - intros [(rs & Hrs & Hq) Hne]. destruct (decide (x = sid)) as [->|Hx].
    + exists (rs ∖ {[ r ]}). rewrite lookup_alter_eq, Hrs. split; [done|].
      apply elem_of_difference. split; [done|].
      intros ->%elem_of_singleton. by apply Hne.
    + exists rs. by rewrite lookup_alter_ne.
Qed.

(** A socket that switches rooms stays in the room named by its own id,
    unless the room it leaves is that one. *)
Lemma join_keeps_own_room sid roomName old (a : Adapter) :
  sid ∈ members a sid → old ≠ sid →
  sid ∈ members
          (adapter_join sid roomName
             (if decide (old = EmptyString) then a
              else adapter_leave sid old a)) sid.
Proof.
  intros Hmem Hold. apply elem_of_members_join. left.
  destruct (decide (old = EmptyString)); [done|].
  apply elem_of_members_leave. split; [done|]. by intros [_ ?].
Qed.

(** ** Sessions, typing marks and connections *)

Lemma init_registry_ok : registry_ok init.
Proof. by repeat split. Qed.

Lemma step_registry_ok clk sid ev σ :
  registry_ok σ → registry_ok (next (step clk sid ev σ)).
Proof.
  intros (Hconn & Htyp & Hid).
  destruct ev; simpl; destruct (connected σ sid) eqn:Hc; simpl;
    try (by repeat split).
  - (* connection *)
    repeat split; simpl; try done.
    intros s u Hs. rewrite dom_insert_L. apply elem_of_union. right. eauto.
  - (* user_join *)
    apply bool_decide_eq_true in Hc.
    repeat split; simpl.
    + intros s u. rewrite get_set, dom_adapter_join.
      destruct (decide (sid = s)) as [<-|]; [done | eauto].
    + intros s n Hs. rewrite get_set.
      destruct (decide (sid = s)); [by eexists | eauto].
    + by apply Forall_set.
  - (* join_room *)
    unfold on_join_room. destruct (get (users σ) sid) as [user|] eqn:Hu;
      simpl; [|by repeat split].
    assert (Hdom : dom (adapter_join sid roomName
                     (if decide (user_room user = EmptyString) then sids σ
                      else adapter_leave sid (user_room user) (sids σ)))
                   = dom (sids σ)).
    { rewrite dom_adapter_join. destruct (decide _); [done|].
      apply dom_adapter_leave. }
    repeat split; simpl.
    + intros s u. rewrite get_update, Hdom.
      destruct (decide (sid = s)) as [<-|]; [|eauto].
      intros _. eauto.
    + intros s n Hs. rewrite get_update.
      destruct (decide (sid = s)) as [<-|]; [|eauto].
      rewrite Hu. by eexists.
    + apply Forall_update; [|done]. simpl.
      rewrite Forall_forall in Hid.
      apply (Hid (sid, user)). by apply get_Some_elem.
  - unfold on_send_message. destruct (get (users σ) sid); [push_cases|];
      by repeat split.
  - unfold on_private_message. destruct (get (users σ) sid); by repeat split.
  - unfold on_send_file. destruct (get (users σ) sid); [push_cases|];
      by repeat split.
  - (* typing *)
    unfold on_typing. destruct (get (users σ) sid) as [user|] eqn:Hu;
      simpl; [|by repeat split].
    repeat split; simpl; try done.
    intros s n. destruct isTyping.
    + rewrite get_set. destruct (decide (sid = s)) as [<-|]; [|eauto].
      intros _. by eexists.
    + rewrite get_remove. destruct (decide (sid = s)); [done | eauto].
  - unfold on_react_message.
    destruct (react_rooms sid messageId r (rooms σ)); by repeat split.
  - unfold on_read_message. destruct (get (users σ) sid) as [user|];
      [|by repeat split].
    destruct (read_rooms (username user) messageId (rooms σ)); by repeat split.
  - (* disconnect *)
    unfold on_disconnect. simpl.
    destruct (get (users σ) sid) as [user|] eqn:Hu; simpl.
    + repeat split; simpl.
      * intros s u. rewrite get_remove, dom_delete_L.
        destruct (decide (sid = s)); [done|]. intros Hs.
        apply elem_of_difference. split; [eauto|].
        by apply not_elem_of_singleton.
      * intros s n. rewrite !get_remove.
        destruct (decide (sid = s)); [done | eauto].
      * by apply Forall_remove.
    + repeat split; simpl; try done.
      intros s u Hs. rewrite dom_delete_L.
      apply elem_of_difference. split; [eauto|].
      apply not_elem_of_singleton. congruence.
Qed.

Lemma run_registry_ok tr : ∀ σ, registry_ok σ → registry_ok (run tr σ).
Proof.
  induction tr as [|i tr IH]; intros σ H; simpl; [done|].
  apply IH. by apply step_registry_ok.
Qed.

Lemma run_app tr1 tr2 σ : run (tr1 ++ tr2) σ = run tr2 (run tr1 σ).
Proof. revert σ. induction tr1 as [|i tr1 IH]; intros σ; simpl; auto. Qed.

(** ** Disconnection *)

Lemma disconnect_clears clk sid σ :
  registry_ok σ →
  get (users (next (step clk sid disconnect σ))) sid = None ∧
  get (typingUsers (next (step clk sid disconnect σ))) sid = None ∧
  sids (next (step clk sid disconnect σ)) !! sid = None.
Proof.
  intros (Hconn & Htyp & _). simpl.
  assert (Hno : get (users σ) sid = None → get (typingUsers σ) sid = None).
  { intros Hu. destruct (get (typingUsers σ) sid) as [n|] eqn:Ht; [|done].
    destruct (Htyp sid n Ht) as [u Hu']. congruence. }
  destruct (connected σ sid) eqn:Hc; simpl.
  - unfold on_disconnect. simpl.
    destruct (get (users σ) sid) as [u|] eqn:Hu; simpl.
    + rewrite !get_remove, !decide_True by done.
      by rewrite lookup_delete_eq.
    + rewrite lookup_delete_eq. auto.
  - apply bool_decide_eq_false in Hc.
    assert (Hu : get (users σ) sid = None).
    { destruct (get (users σ) sid) as [u|] eqn:Hu; [|done].
      destruct Hc. eauto. }
    repeat split; auto. by apply not_elem_of_dom.
Qed.

Lemma roomUsers_ids us r u :
  Forall (λ kv : string * User, user_id kv.2 = kv.1) us →
  u ∈ roomUsers us r → user_id u ∈ keys us.
Proof.
  intros Hid Hu. unfold roomUsers in Hu.
  apply list_elem_of_filter in Hu as [_ Hu]. unfold values in Hu.
  change (map snd us) with (snd <$> us) in Hu.
  apply list_elem_of_fmap in Hu as ([k u'] & -> & Hin).
  rewrite Forall_forall in Hid. specialize (Hid _ Hin). simpl in *.
  rewrite Hid. unfold keys. change (map fst us) with (fst <$> us).
  apply list_elem_of_fmap. by exists (k, u').
Qed.

(** C8: after a socket's disconnect event, whatever happened before it, the
    socket id is the key of no session, it is not marked as typing, it is a
    member of no room, and no room's user listing shows a session with that
    id. *)
Theorem disconnect_retracts_session tr clk sid :
  (sid ∉ keys (users (run (tr ++ [mkInput clk sid disconnect]) init))) ∧
  (sid ∉ keys (typingUsers (run (tr ++ [mkInput clk sid disconnect]) init))) ∧
  (∀ r, sid ∉ members (sids (run (tr ++ [mkInput clk sid disconnect]) init)) r) ∧
  (∀ r u, u ∈ roomUsers (users (run (tr ++ [mkInput clk sid disconnect]) init)) r →
          user_id u ≠ sid).
Proof.
  rewrite run_app. simpl. unfold step_in. simpl in_clock. simpl in_sid.
  simpl in_event.
  pose proof (run_registry_ok tr init init_registry_ok) as Hok.
  destruct (disconnect_clears clk sid _ Hok) as (Hu & Ht & Hs).
  pose proof (step_registry_ok clk sid disconnect _ Hok) as (_ & _ & Hid).
  apply get_None_keys in Hu. apply get_None_keys in Ht.
  repeat split; try done.
  - intros r Hr. apply elem_of_members in Hr as (rs & Hrs & _). congruence.
  - intros r u Hin Heq. pose proof (roomUsers_ids _ r u Hid Hin) as Hk.
    rewrite Heq in Hk. exact (Hu Hk).
Qed.

(** The same on a run in which the session is marked as typing when its
    connection drops. *)
Example disconnect_while_typing :
  typingUsers (run Sample.typing_then_gone init) = [("s1", "ann")] ∧
  typingUsers (run (Sample.typing_then_gone
                    ++ [Sample.input 6 "s1" disconnect]) init) = [] ∧
  users (run (Sample.typing_then_gone
              ++ [Sample.input 6 "s1" disconnect]) init)
    = [("s2", mkUser "bob" "s2" "global")].
Proof. repeat split; vm_compute; reflexivity. Qed.

(** ** Room membership *)

Lemma step_rooms_ok S clk sid ev σ :
  sid ∈ S →
  (∀ r, joined_room ev = Some r → r ≠ "" ∧ r ∉ S) →
  (∀ name, ev = user_join name → get (users σ) sid = None) →
  registry_ok σ → rooms_ok S σ →
  rooms_ok S (next (step clk sid ev σ)).
Proof.
  intros HS Hroom Hjoin (Hconn & _ & _) Hok.
  destruct ev; simpl; destruct (connected σ sid) eqn:Hc; simpl;
    try exact Hok.
  - (* connection of a new socket *)
    apply bool_decide_eq_false in Hc.
    intros s rs Hs. simpl in *.
    destruct (decide (sid = s)) as [<-|Hne].
    + rewrite lookup_insert_eq in Hs. injection Hs as <-. split; [done|].
      destruct (get (users σ) sid) as [u|] eqn:Hu; [|done].
      destruct Hc. eauto.
    + rewrite lookup_insert_ne in Hs by done. by apply Hok.
  - (* user_join *)
    specialize (Hjoin name eq_refl).
    destruct (Hroom "global" eq_refl) as [_ Hglobal].
    intros s rs Hs. simpl in *. unfold adapter_join in Hs.
    destruct (decide (sid = s)) as [<-|Hne].
    + rewrite lookup_alter_eq in Hs.
      destruct (sids σ !! sid) as [rs0|] eqn:Hrs0; [|done].
      simpl in Hs. injection Hs as <-.
      destruct (Hok sid rs0 Hrs0) as [_ Hrs]. rewrite Hjoin in Hrs. subst rs0.
      split; [done|]. rewrite get_set, decide_True by done. simpl.
      split; [|done]. apply set_eq. intros x.
      rewrite !elem_of_union, !elem_of_singleton. tauto.
    + rewrite lookup_alter_ne in Hs by done.
      rewrite get_set, decide_False by done. by apply Hok.
  - (* join_room *)
    unfold on_join_room.
    destruct (get (users σ) sid) as [u|] eqn:Hu; [|exact Hok].
    destruct (Hroom roomName eq_refl) as [Hnonempty Hfresh].
    intros s rs Hs. simpl in *. unfold adapter_join in Hs.
    destruct (decide (sid = s)) as [<-|Hne].
    + rewrite lookup_alter_eq in Hs.
      rewrite get_update, decide_True, Hu by done. simpl.
      pose proof (Hconn sid u Hu) as Hd.
      apply elem_of_dom in Hd as [rs0 Hrs0].
      destruct (Hok sid rs0 Hrs0) as [_ Hrs]. rewrite Hu in Hrs.
      destruct Hrs as (-> & Hold & HoldS).
      rewrite decide_False in Hs by done.
      unfold adapter_leave in Hs. rewrite lookup_alter_eq, Hrs0 in Hs.
      simpl in Hs. injection Hs as <-.
      split; [done|]. split; [|done]. apply set_eq. intros x.
      rewrite !elem_of_union, elem_of_difference, !elem_of_union,
        !elem_of_singleton.
      assert (sid ≠ user_room u) by (intros E; apply HoldS; by rewrite <- E).
      destruct (decide (x = sid)) as [->|]; [tauto|]. tauto.
    + rewrite lookup_alter_ne in Hs by done.
      rewrite get_update, decide_False by done.
      destruct (decide (user_room u = EmptyString)); [by apply Hok|].
      unfold adapter_leave in Hs. rewrite lookup_alter_ne in Hs by done.
      by apply Hok.
  - unfold on_send_message. destruct (get (users σ) sid); [push_cases|]; exact Hok.
  - unfold on_private_message. destruct (get (users σ) sid); exact Hok.
  - unfold on_send_file. destruct (get (users σ) sid); [push_cases|]; exact Hok.
  - unfold on_typing. destruct (get (users σ) sid); exact Hok.
  - unfold on_react_message.
    destruct (react_rooms sid messageId r (rooms σ)); exact Hok.
  - unfold on_read_message. destruct (get (users σ) sid) as [u|]; [|exact Hok].
    destruct (read_rooms (username u) messageId (rooms σ)); exact Hok.
  - (* disconnect *)
    unfold on_disconnect. simpl.
    destruct (get (users σ) sid) as [u|] eqn:Hu; intros s rs Hs; simpl in *.
    + destruct (decide (sid = s)) as [<-|Hne];
        [by rewrite lookup_delete_eq in Hs|].
      rewrite lookup_delete_ne in Hs by done.
      rewrite get_remove, decide_False by done. by apply Hok.
    + destruct (decide (sid = s)) as [<-|Hne];
        [by rewrite lookup_delete_eq in Hs|].
      rewrite lookup_delete_ne in Hs by done. by apply Hok.
Qed.

Lemma joins_once_head i tr σ :
  joins_once (i :: tr) σ = true →
  (∀ name, in_event i = user_join name → get (users σ) (in_sid i) = None) ∧
  joins_once tr (next (step_in i σ)) = true.
Proof.
  simpl. intros [H1 H2]%andb_true_iff. split; [|done].
  intros name Hev. rewrite Hev in H1. unfold has in H1.
  by destruct (get (users σ) (in_sid i)).
Qed.

Lemma run_rooms_ok S tr : ∀ σ,
  Forall (λ s, s ∈ S) (sockets_of tr) →
  names_apart S tr →
  joins_once tr σ = true →
  registry_ok σ → rooms_ok S σ →
  registry_ok (run tr σ) ∧ rooms_ok S (run tr σ).
Proof.
  induction tr as [|i tr IH]; intros σ HS Hnames Hjoin Hreg Hok; [done|].
  apply joins_once_head in Hjoin as [Hj Hjoin].
  apply Forall_cons in HS as [Hi HS].
  assert (Hr : ∀ r, joined_room (in_event i) = Some r → r ≠ "" ∧ r ∉ S).
  { intros r Hr. unfold names_apart, room_names_of in Hnames. simpl in Hnames.
    rewrite Hr in Hnames. by apply Forall_cons in Hnames as [? _]. }
  assert (Hnames' : names_apart S tr).
  { unfold names_apart, room_names_of in *. simpl in Hnames.
    destruct (joined_room (in_event i)); [|done].
    by apply Forall_cons in Hnames as [_ ?]. }
  simpl. apply IH; try done.
  - by apply step_registry_ok.
  - by apply step_rooms_ok.
Qed.

Lemma init_rooms_ok S : rooms_ok S init.
Proof. intros sid rs H. simpl in H. by rewrite lookup_empty in H. Qed.






(** ** Further consequences *)

(** A second read receipt under the same reader name, from whichever session,
    changes nothing either. *)
Lemma markRead_same_reader_name clk clk' sid sid' messageId σ u u' :
  connected σ sid = true → get (users σ) sid = Some u →
  get (users σ) sid' = Some u' → username u' = username u →
  step clk' sid' (read_message messageId)
    (next (step clk sid (read_message messageId) σ))
  = silent (next (step clk sid (read_message messageId) σ)).
Proof.
  intros Hc Hu Hu' Hname. simpl. rewrite Hc. unfold on_read_message.
  rewrite Hu.
  pose proof (read_rooms_again (username u) messageId (rooms σ)) as H.
  destruct (read_rooms (username u) messageId (rooms σ)) as [rooms' es].
  simpl in *. unfold connected. simpl.
  destruct (bool_decide (sid' ∈ dom (sids σ))); [|done].
  by rewrite Hu', Hname, H.
Qed.

(** Two rooms each hold a message with id 6; one read receipt marks both and
    notifies both rooms. *)
Example read_receipt_two_rooms :
  map readers
    (room_log (next (step (at_time 9) "s2" (read_message 6)
                       (run Sample.same_id_two_rooms init))) "global")
    = [["bob"]] ∧
  map readers
    (room_log (next (step (at_time 9) "s2" (read_message 6)
                       (run Sample.same_id_two_rooms init))) "tech")
    = [["bob"]] ∧
  emitted (step (at_time 9) "s2" (read_message 6)
             (run Sample.same_id_two_rooms init))
    = [ (InRoom "tech", message_read 6 ["bob"]);
        (InRoom "global", message_read 6 ["bob"]) ].
Proof. repeat split; vm_compute; reflexivity. Qed.

(** Where every socket is in its own room and its current room only, the room
    named by a connected socket's id has that socket as its only member. *)
Lemma own_room_members S σ to :
  rooms_ok S σ → to ∈ dom (sids σ) → members (sids σ) to = {[ to ]}.
Proof.
  intros Hok [rs0 Hto]%elem_of_dom. apply set_eq. intros x.
  rewrite elem_of_members, elem_of_singleton. split.
  - intros (rs & Hrs & Hin).
    destruct (Hok to rs0 Hto) as [HtoS _].
    destruct (Hok x rs Hrs) as [_ Hx].
    destruct (get (users σ) x) as [u|].
    + destruct Hx as (-> & _ & HroomS).
      apply elem_of_union in Hin as [Hin|Hin]; apply elem_of_singleton in Hin;
        [done|]. by subst to.
    + subst rs. by apply elem_of_singleton in Hin.
  - intros ->. exists rs0. split; [done|].
    destruct (Hok to rs0 Hto) as [_ Hx].
    destruct (get (users σ) to) as [u|].
    + destruct Hx as (-> & _). apply elem_of_union. left.
      by apply elem_of_singleton.
    + subst rs0. by apply elem_of_singleton.
Qed.

(** Hence, along a sequence of events in which sessions are joined once and
    room names are kept apart from socket ids, a private message addressed to
    a connected socket reaches the sender and that socket, nobody else. *)
Lemma private_message_two_parties tr clk sid to text u :
  joins_once tr init = true →
  names_apart (sockets_of tr) tr →
  connected (run tr init) sid = true →
  get (users (run tr init)) sid = Some u →
  connected (run tr init) to = true →
  reached (step clk sid (private_message to text) (run tr init))
  = {[ sid; to ]}.
Proof.
  intros Hjoin Hnames Hc Hu Hto.
  assert (Hall : Forall (λ s, s ∈ sockets_of tr) (sockets_of tr))
    by (by apply Forall_forall).
  destruct (run_rooms_ok (sockets_of tr) tr init Hall Hnames Hjoin
              init_registry_ok (init_rooms_ok _)) as [_ Hok].
  erewrite reached_private by eassumption.
  rewrite (own_room_members _ _ to Hok)
    by (by apply bool_decide_eq_true in Hto).
  rewrite (own_room_members _ _ sid Hok)
    by (by apply bool_decide_eq_true in Hc).
  apply set_eq. intros x.
  rewrite !elem_of_union, elem_of_difference, !elem_of_singleton.
  destruct (decide (x = sid)); tauto.
Qed.

(* ================================================================== *)
(** * Further properties of the handlers *)

(** ** Sending to a room *)

Lemma append_log_get r m rs k :
  get (append_log r m rs) k
  = if decide (r = k) then Some (default [] (get rs r) ++ [m]) else get rs k.
Proof. unfold append_log. apply get_set. Qed.

(** X1: a message sent by a registered session whose current room is not
    named like a property that [rooms] inherits from [Object.prototype] is
    appended at the tail of the log of that room (created if absent) and
    emitted to that room, and the handler does not throw; the message carries
    the sender's name and socket id, the text, the clock reading as id, no
    attachment, no reactions and no readers; nothing else in the state
    changes. *)
Theorem send_message_appends clk sid text σ u :
  connected σ sid = true →
  get (users σ) sid = Some u →
  inherited (user_room u) = false →
  ∃ m,
    thrown (step clk sid (send_message text) σ) = false ∧
    emitted (step clk sid (send_message text) σ)
      = [(InRoom (user_room u), receive_message m)] ∧
    get (rooms (next (step clk sid (send_message text) σ))) (user_room u)
      = Some (room_log σ (user_room u) ++ [m]) ∧
    (∀ r, r ≠ user_room u →
       get (rooms (next (step clk sid (send_message text) σ))) r
       = get (rooms σ) r) ∧
    users (next (step clk sid (send_message text) σ)) = users σ ∧
    typingUsers (next (step clk sid (send_message text) σ)) = typingUsers σ ∧
    sids (next (step clk sid (send_message text) σ)) = sids σ ∧
    sender m = username u ∧ senderId m = sid ∧ message m = text ∧
    msg_id m = date_now clk ∧ timestamp m = iso_string clk ∧
    isPrivate m = false ∧ fileData m = None ∧ fileName m = None ∧
    reactions m = [] ∧ readers m = [].
Proof.
  intros Hc Hu Hown. simpl. rewrite Hc. unfold on_send_message. rewrite Hu.
  unfold push_message. rewrite Hown, andb_false_r. simpl.
  eexists. split; [reflexivity|]. split; [reflexivity|]. split.
  { rewrite append_log_get. by rewrite decide_True. }
  split.
  { intros r Hr. rewrite append_log_get. by rewrite decide_False. }
  repeat split; try reflexivity.
  unfold createMessage, js_or, truthy. simpl.
  by destruct (decide (text = EmptyString)) as [->|].
Qed.

(** ann sends "hello" once she and bob have joined. *)
Lemma send_message_appends_witness :
  ∃ m,
    thrown (step (at_time 5) "s1" (send_message "hello")
              (run Sample.two_joined init)) = false ∧
    emitted (step (at_time 5) "s1" (send_message "hello")
               (run Sample.two_joined init))
      = [(InRoom (user_room (mkUser "ann" "s1" "global")), receive_message m)] ∧
    message m = "hello" ∧ reactions m = [] ∧ readers m = [].
Proof.
  destruct (send_message_appends (at_time 5) "s1" "hello"
              (run Sample.two_joined init) (mkUser "ann" "s1" "global"))
    as (m & Ht & He & _ & _ & _ & _ & _ & _ & _ & Hm & _ & _ & _ & _ & _
        & Hr & Hd).
  - vm_compute; reflexivity.
  - vm_compute; reflexivity.
  - vm_compute; reflexivity.
  - exists m. auto.
Defined.

(** X2: a file sent by a registered session whose current room is not named
    like a property that [rooms] inherits from [Object.prototype] is appended
    to the log of that room and emitted to that room as a message with empty
    text, and the handler does not throw; the attachment fields hold the data
    and the name, or null where the string given is empty. *)
Theorem send_file_appends clk sid fname fdata σ u :
  connected σ sid = true →
  get (users σ) sid = Some u →
  inherited (user_room u) = false →
  ∃ m,
    thrown (step clk sid (send_file fname fdata) σ) = false ∧
    emitted (step clk sid (send_file fname fdata) σ)
      = [(InRoom (user_room u), receive_message m)] ∧
    get (rooms (next (step clk sid (send_file fname fdata) σ))) (user_room u)
      = Some (room_log σ (user_room u) ++ [m]) ∧
    (∀ r, r ≠ user_room u →
       get (rooms (next (step clk sid (send_file fname fdata) σ))) r
       = get (rooms σ) r) ∧
    sender m = username u ∧ senderId m = sid ∧ message m = EmptyString ∧
    msg_id m = date_now clk ∧ isPrivate m = false ∧
    fileData m = (if decide (fdata = EmptyString) then None else Some fdata) ∧
    fileName m = (if decide (fname = EmptyString) then None else Some fname) ∧
    reactions m = [] ∧ readers m = [].
Proof.
  intros Hc Hu Hown. simpl. rewrite Hc. unfold on_send_file. rewrite Hu.
  unfold push_message. rewrite Hown, andb_false_r. simpl.
  eexists. split; [reflexivity|]. split; [reflexivity|]. split.
  { rewrite append_log_get. by rewrite decide_True. }
  split.
  { intros r Hr. rewrite append_log_get. by rewrite decide_False. }
  repeat split; reflexivity.
Qed.

(** ann sends a file whose name is the empty string. *)
Lemma send_file_appends_witness :
  ∃ m,
    thrown (step (at_time 5) "s1" (send_file "" "data:abc")
              (run Sample.two_joined init)) = false ∧
    emitted (step (at_time 5) "s1" (send_file "" "data:abc")
               (run Sample.two_joined init))
      = [(InRoom (user_room (mkUser "ann" "s1" "global")), receive_message m)] ∧
    fileData m = Some "data:abc" ∧ fileName m = None.
Proof.
  destruct (send_file_appends (at_time 5) "s1" "" "data:abc"
              (run Sample.two_joined init) (mkUser "ann" "s1" "global"))
    as (m & Ht & He & _ & _ & _ & _ & _ & _ & _ & Hd & Hn & _).
  - vm_compute; reflexivity.
  - vm_compute; reflexivity.
  - vm_compute; reflexivity.
  - exists m. auto.
Defined.

(** ** Rooms and logs over time *)

Lemma step_log_length clk sid ev σ r :
  (length (room_log σ r) ≤ length (room_log (next (step clk sid ev σ)) r)
   ≤ length (room_log σ r) + 1)%nat.
Proof.
  unfold room_log.
  destruct ev; simpl; destruct (connected σ sid); simpl; try lia.
  - unfold on_join_room. destruct (get (users σ) sid); simpl; [|lia].
    destruct (has (rooms σ) roomName) eqn:Hr; [lia|].
    destruct (inherited roomName); [lia|].
    unfold has in Hr. rewrite get_set.
    destruct (decide (roomName = r)) as [->|]; [|lia].
    destruct (get (rooms σ) r); [done | simpl; lia].
  - unfold on_send_message. destruct (get (users σ) sid); simpl; [|lia].
    push_cases; [lia|].
    rewrite append_log_get. destruct (decide _) as [->|]; [|lia].
    simpl. rewrite length_app. simpl. lia.
  - unfold on_private_message. destruct (get (users σ) sid); simpl; lia.
  - unfold on_send_file. destruct (get (users σ) sid); simpl; [|lia].
    push_cases; [lia|].
    rewrite append_log_get. destruct (decide _) as [->|]; [|lia].
    simpl. rewrite length_app. simpl. lia.
  - unfold on_typing. destruct (get (users σ) sid); simpl; lia.
  - unfold on_react_message.
    pose proof (react_rooms_rel sid messageId r0 (rooms σ)) as H.
    destruct (react_rooms sid messageId r0 (rooms σ)) as [rooms' es].
    simpl in *. pose proof (obj_rel_get _ _ _ r H) as Hr.
    destruct Hr as [l l' Hl|]; simpl; [|lia].
    apply Forall2_length in Hl. lia.
  - unfold on_read_message. destruct (get (users σ) sid) as [u|]; simpl; [|lia].
    pose proof (read_rooms_rel (username u) messageId (rooms σ)) as H.
    destruct (read_rooms (username u) messageId (rooms σ)) as [rooms' es].
    simpl in *. pose proof (obj_rel_get _ _ _ r H) as Hr.
    destruct Hr as [l l' Hl|]; simpl; [|lia].
    apply Forall2_length in Hl. lia.
  - unfold on_disconnect. simpl. destruct (get (users σ) sid); simpl; lia.
Qed.

(** X3: along a sequence of events that the server survives (no handler
    throws), no room and no message is removed: a room that exists keeps
    existing, and the length of its log never decreases and grows by at most
    one per event. *)
Theorem rooms_and_logs_only_grow tr σ r :
  survives tr σ = true →
  has (rooms σ) r = true →
  has (rooms (run tr σ)) r = true ∧
  (length (room_log σ r) ≤ length (room_log (run tr σ) r)
   ≤ length (room_log σ r) + length tr)%nat.
Proof.
  intros _ Hr. split; [by apply run_logs|]. clear Hr.
  revert σ. induction tr as [|i tr IH]; intros σ; simpl; [lia|].
  specialize (IH (next (step_in i σ))).
  pose proof (step_log_length (in_clock i) (in_sid i) (in_event i) σ r) as H.
  unfold step_in in *. lia.
Qed.

(** Room "global" after ann's two messages, followed by bob's read receipt. *)
Lemma rooms_and_logs_only_grow_witness :
  has (rooms (run [Sample.input 9 "s2" (read_message 5)]
                (run Sample.same_millisecond init))) "global" = true ∧
  (length (room_log (run Sample.same_millisecond init) "global")
   ≤ length (room_log (run [Sample.input 9 "s2" (read_message 5)]
                        (run Sample.same_millisecond init)) "global")
   ≤ length (room_log (run Sample.same_millisecond init) "global")
     + length [Sample.input 9 "s2" (read_message 5)])%nat.
Proof.
  refine (rooms_and_logs_only_grow _ _ _ _ _); vm_compute; reflexivity.
Defined.

(** ** Switching rooms *)

Lemma join_room_payload roomName (rs : obj (list Message)) :
  get (if has rs roomName then rs else set roomName [] rs) roomName
  = Some (default [] (get rs roomName)).
Proof.
  destruct (has rs roomName) eqn:Hr; unfold has in Hr.
  - by destruct (get rs roomName).
  - rewrite get_set, decide_True by done. by destruct (get rs roomName).
Qed.

(** X4: a registered session switches to a room whose name is not one that
    [rooms] inherits from [Object.prototype]; its socket is in the room named
    by its own id and its current room is not that room.  Then the room is
    created with an empty log if it did not exist, no log changes, the
    session's record gets the new room while the other sessions and the
    typing marks stay as they were, the handler does not throw, and the whole
    log of the room is emitted to the room named by the socket's id, of which
    the joining socket is still a member, followed by the room's user
    listing emitted to the room. *)
Theorem join_room_history clk sid roomName σ u :
  connected σ sid = true →
  get (users σ) sid = Some u →
  inherited roomName = false →
  sid ∈ members (sids σ) sid →
  user_room u ≠ sid →
  emitted (step clk sid (join_room roomName) σ)
    = [ (InRoom sid, room_messages (room_log σ roomName));
        (InRoom roomName,
         room_users (roomUsers (users (next (step clk sid (join_room roomName) σ)))
                       roomName)) ] ∧
  sid ∈ recipients (sids (next (step clk sid (join_room roomName) σ)))
          (InRoom sid) ∧
  thrown (step clk sid (join_room roomName) σ) = false ∧
  has (rooms (next (step clk sid (join_room roomName) σ))) roomName = true ∧
  (∀ r, room_log (next (step clk sid (join_room roomName) σ)) r = room_log σ r) ∧
  get (users (next (step clk sid (join_room roomName) σ))) sid
    = Some (set_user_room u roomName) ∧
  (∀ s, s ≠ sid →
     get (users (next (step clk sid (join_room roomName) σ))) s
     = get (users σ) s) ∧
  typingUsers (next (step clk sid (join_room roomName) σ)) = typingUsers σ.
Proof.
  intros Hc Hu Hown Hmem Hroom. simpl. rewrite Hc. unfold on_join_room.
  rewrite Hu, Hown. simpl. unfold room_log. simpl.
  assert (Hget : get (if has (rooms σ) roomName then rooms σ
                      else set roomName [] (rooms σ)) roomName
                 = Some (default [] (get (rooms σ) roomName))).
  { destruct (has (rooms σ) roomName) eqn:Hr; unfold has in Hr.
    - by destruct (get (rooms σ) roomName).
    - rewrite get_set, decide_True by done.
      by destruct (get (rooms σ) roomName). }
  assert (Hlog : ∀ r,
    default [] (get (if has (rooms σ) roomName then rooms σ
                     else set roomName [] (rooms σ)) r)
    = default [] (get (rooms σ) r)).
  { intros r. destruct (has (rooms σ) roomName) eqn:Hr; [done|].
    unfold has in Hr. rewrite get_set.
    destruct (decide (roomName = r)) as [->|]; [|done].
    by destruct (get (rooms σ) r). }
  split; [by rewrite Hget|]. split.
  { by apply join_keeps_own_room. }
  split; [done|]. split.
  { unfold has at 1. by rewrite Hget. }
  split; [exact Hlog|]. split.
  { by rewrite get_update, decide_True, Hu. }
  split; [|done].
  intros s Hs. by rewrite get_update, decide_False.
Qed.

(** ann switches to "tech", a room nobody has used yet. *)
Lemma join_room_history_witness :
  emitted (step (at_time 5) "s1" (join_room "tech") (run Sample.two_joined init))
    = [ (InRoom "s1", room_messages []);
        (InRoom "tech", room_users [mkUser "ann" "s1" "tech"]) ] ∧
  "s1" ∈ recipients (sids (next (step (at_time 5) "s1" (join_room "tech")
                                   (run Sample.two_joined init))))
           (InRoom "s1") ∧
  has (rooms (next (step (at_time 5) "s1" (join_room "tech")
                      (run Sample.two_joined init)))) "tech" = true.
Proof.
  destruct (join_room_history (at_time 5) "s1" "tech"
              (run Sample.two_joined init) (mkUser "ann" "s1" "global"))
    as (He & Hme & _ & Hr & _).
  - vm_compute; reflexivity.
  - vm_compute; reflexivity.
  - vm_compute; reflexivity.
  - refine (bool_decide_unpack _ _). vm_compute. exact I.
  - discriminate.
  - split; [|split; [exact Hme | exact Hr]]. rewrite He. vm_compute.
    reflexivity.
Defined.

(** ** Reactions and receipts for ids nobody holds *)

Lemma find_unknown messageId log :
  Forall (λ m, msg_id m ≠ messageId) log → find (has_id messageId) log = None.
Proof.
  induction 1 as [|m log Hm _ IH]; simpl; [done|].
  unfold has_id at 1. by rewrite (proj2 (Z.eqb_neq _ _) Hm).
Qed.

Lemma react_rooms_unknown sid messageId r rs :
  id_unknown messageId rs → react_rooms sid messageId r rs = (rs, []).
Proof.
  induction 1 as [|[room log] rest Hlog _ IH]; simpl; [done|].
  rewrite find_unknown by done. by rewrite IH.
Qed.

Lemma read_rooms_unknown name messageId rs :
  id_unknown messageId rs → read_rooms name messageId rs = (rs, []).
Proof.
  induction 1 as [|[room log] rest Hlog _ IH]; simpl; [done|].
  rewrite IH. unfold read_log. by rewrite find_unknown.
Qed.

(** X5: a reaction or a read receipt for an id that no logged message has is
    dropped: the state stays as it is and nothing is emitted. *)
Theorem unknown_message_id_dropped clk sid messageId r σ :
  id_unknown messageId (rooms σ) →
  step clk sid (react_message messageId r) σ = silent σ ∧
  step clk sid (read_message messageId) σ = silent σ.
Proof.
  intros Hid. simpl. destruct (connected σ sid); [|done]. split.
  - unfold on_react_message. rewrite react_rooms_unknown by done.
    by destruct σ.
  - unfold on_read_message. destruct (get (users σ) sid); [|done].
    rewrite read_rooms_unknown by done. by destruct σ.
Qed.

(** bob reacts to, and acknowledges, id 99 while the log holds ids 5 and 5. *)
Lemma unknown_message_id_dropped_witness :
  step (at_time 9) "s2" (react_message 99 "like")
    (run Sample.same_millisecond init)
  = silent (run Sample.same_millisecond init) ∧
  step (at_time 9) "s2" (read_message 99) (run Sample.same_millisecond init)
  = silent (run Sample.same_millisecond init).
Proof.
  refine (unknown_message_id_dropped _ _ _ _ _ _).
  vm_compute. repeat constructor; discriminate.
Defined.

(** ** Where a reaction lands *)

Lemma react_rooms_first sid messageId r pre room log post n m :
  id_unknown messageId pre →
  log !! n = Some m → msg_id m = messageId →
  (∀ k m', (k < n)%nat → log !! k = Some m' → msg_id m' ≠ messageId) →
  react_rooms sid messageId r (pre ++ (room, log) :: post)
  = (pre ++ (room, <[n := push_reaction (mkReaction sid r) m]> log) :: post,
     [(InRoom room, message_reaction messageId r)]).
Proof.
  intros Hpre Hn Hid Hbefore.
  destruct (find_at_first (has_id messageId) log n m Hn) as [Hfind Hupd].
  { unfold has_id. lia. }
  { intros k m' Hk Hm'. unfold has_id. specialize (Hbefore k m' Hk Hm'). lia. }
  induction Hpre as [|[room0 log0] rest Hlog _ IH]; simpl.
  - by rewrite Hfind, Hupd.
  - rewrite find_unknown by done. by rewrite IH.
Qed.

(** X6: a reaction goes to one message only: the first message with the id
    in the first room, in enumeration order, whose log holds one.  That
    message gets the reaction appended with the reacting socket's id, one
    notification is emitted to that room, and every other room and message is
    left as it was, also those with the same id. *)
Theorem reaction_lands_in_first_room clk sid messageId r σ pre room log post n m :
  connected σ sid = true →
  rooms σ = pre ++ (room, log) :: post →
  id_unknown messageId pre →
  log !! n = Some m →
  msg_id m = messageId →
  (∀ k m', (k < n)%nat → log !! k = Some m' → msg_id m' ≠ messageId) →
  rooms (next (step clk sid (react_message messageId r) σ))
    = pre ++ (room, <[n := push_reaction (mkReaction sid r) m]> log) :: post ∧
  emitted (step clk sid (react_message messageId r) σ)
    = [(InRoom room, message_reaction messageId r)].
Proof.
  intros Hc Hrooms Hpre Hn Hid Hbefore. simpl. rewrite Hc.
  unfold on_react_message. rewrite Hrooms.
  by rewrite (react_rooms_first sid messageId r pre room log post n m).
Qed.

(** Rooms "tech" and "global" both hold a message with id 6; ann's reaction
    reaches the one in "tech", the room created first. *)
Lemma reaction_lands_in_first_room_witness :
  map (λ kv : string * list Message, (kv.1, map reactions kv.2))
    (rooms (next Sample.ann_reacts_6))
  = [ ("tech", [[mkReaction "s1" "like"]]); ("global", [[]]) ] ∧
  emitted Sample.ann_reacts_6 = [(InRoom "tech", message_reaction 6 "like")].
Proof.
  destruct (reaction_lands_in_first_room (at_time 9) "s1" 6 "like"
              (run Sample.same_id_two_rooms init) [] "tech"
              [createMessage (at_time 6)
                 (mkData "ann" "s1" (Some "a") (Some "tech") None None None)]
              [("global",
                [createMessage (at_time 6)
                   (mkData "bob" "s2" (Some "b") (Some "global") None None None)])]
              0 (createMessage (at_time 6)
                   (mkData "ann" "s1" (Some "a") (Some "tech") None None None)))
    as [Hr He].
  - vm_compute; reflexivity.
  - vm_compute; reflexivity.
  - constructor.
  - reflexivity.
  - reflexivity.
  - intros k m' Hk. lia.
  - unfold Sample.ann_reacts_6. rewrite Hr, He. split; vm_compute; reflexivity.
Defined.

(** ** Connections without a session *)

(** A socket that is connected but has not joined sends a message. *)
Lemma guarded_events_ignored_witness :
  step (at_time 7) "s3" (send_message "hi") (run Sample.stranger_connected init)
  = silent (run Sample.stranger_connected init).
Proof.
  apply guarded_events_ignored; vm_compute; reflexivity.
Defined.

(** ** Names of the dictionaries *)

Section JsObjKeys.
Context {V : Type}.
Implicit Types (o : obj V) (k : string) (v : V).

Lemma keys_update k v o : keys (update k v o) = keys o.
Proof.
  induction o as [|[k0 v0] o IH]; simpl; [done|].
  destruct (decide (k = k0)) as [->|]; simpl; [done | by rewrite IH].
Qed.

Lemma keys_create k v o : keys (create k v o) ≡ₚ k :: keys o.
Proof.
  induction o as [|[k0 v0] o IH]; simpl; [done|].
  destruct (key_before k k0); simpl; [done|].
  rewrite IH. apply Permutation_swap.
Qed.

Lemma elem_of_keys_remove k k' o :
  k' ∈ keys (remove k o) ↔ k' ≠ k ∧ k' ∈ keys o.
Proof.
  induction o as [|[k0 v0] o IH]; simpl.
  - rewrite elem_of_nil. tauto.
  - destruct (decide (k = k0)) as [->|Hne]; simpl.
    + rewrite IH, elem_of_cons. split; [tauto|]. intros [? [?|?]]; done.
    + rewrite !elem_of_cons, IH. split; [|tauto].
      intros [->|?]; [split; [congruence | by left] | tauto].
Qed.

Lemma NoDup_keys_remove k o : NoDup (keys o) → NoDup (keys (remove k o)).
Proof.
  induction o as [|[k0 v0] o IH]; simpl; [done|].
  intros [Hk0 Ho]%NoDup_cons. destruct (decide (k = k0)); [auto|].
  simpl. apply NoDup_cons. split; [|auto].
  intros [_ H]%elem_of_keys_remove. done.
Qed.

Lemma NoDup_keys_set k v o : NoDup (keys o) → NoDup (keys (set k v o)).
Proof.
  intros Ho. unfold set. destruct (has o k) eqn:Hk.
  - by rewrite keys_update.
  - rewrite keys_create. apply NoDup_cons. split; [|done].
    apply get_None_keys. unfold has in Hk. by destruct (get o k).
Qed.

Lemma get_Some_elem_iff o k v :
  NoDup (keys o) → get o k = Some v ↔ (k, v) ∈ o.
Proof.
  intros Ho. split; [apply get_Some_elem|].
  induction o as [|[k0 v0] o IH]; simpl; [by intros ?%elem_of_nil|].
  apply NoDup_cons in Ho as [Hk0 Ho].
  intros [[= -> ->]|Hin]%elem_of_cons.
  - by rewrite decide_True.
  - destruct (decide (k = k0)) as [->|]; [|auto].
    destruct Hk0. unfold keys. change (map fst o) with (fst <$> o).
    apply list_elem_of_fmap. by exists (k0, v).
Qed.

Lemma elem_of_values o v :
  NoDup (keys o) → v ∈ values o ↔ ∃ k, get o k = Some v.
Proof.
  intros Ho. unfold values. change (map snd o) with (snd <$> o).
  rewrite list_elem_of_fmap. split.
  - intros ([k v'] & -> & Hin). exists k. by apply get_Some_elem_iff.
  - intros [k Hk]. exists (k, v). split; [done|]. by apply get_Some_elem_iff.
Qed.

End JsObjKeys.

Lemma obj_rel_keys {V} (R : V → V → Prop) (o o' : obj V) :
  obj_rel R o o' → keys o' = keys o.
Proof.
  induction 1 as [|[k v] [k' v'] o o' [Hk _] _ IH]; simpl in *; [done|].
  by rewrite IH, Hk.
Qed.

Lemma step_keys_unique clk sid ev σ :
  keys_unique σ → keys_unique (next (step clk sid ev σ)).
Proof.
  intros (Hu & Hr & Ht).
  destruct ev; simpl; destruct (connected σ sid); simpl;
    try (by repeat split).
  - repeat split; simpl; auto using NoDup_keys_set.
  - unfold on_join_room. destruct (get (users σ) sid); [|by repeat split].
    repeat split; simpl; [by rewrite keys_update | | done].
    destruct (has (rooms σ) roomName); [done|].
    destruct (inherited roomName); auto using NoDup_keys_set.
  - unfold on_send_message. destruct (get (users σ) sid); [|by repeat split].
    push_cases; [by repeat split|].
    repeat split; simpl; try done. unfold append_log.
    auto using NoDup_keys_set.
  - unfold on_private_message. destruct (get (users σ) sid); by repeat split.
  - unfold on_send_file. destruct (get (users σ) sid); [|by repeat split].
    push_cases; [by repeat split|].
    repeat split; simpl; try done. unfold append_log.
    auto using NoDup_keys_set.
  - unfold on_typing. destruct (get (users σ) sid); [|by repeat split].
    repeat split; simpl; try done.
    destruct isTyping; auto using NoDup_keys_set, NoDup_keys_remove.
  - unfold on_react_message.
    pose proof (react_rooms_rel sid messageId r (rooms σ)) as H.
    destruct (react_rooms sid messageId r (rooms σ)) as [rooms' es].
    simpl in *. repeat split; simpl; try done.
    by rewrite (obj_rel_keys _ _ _ H).
  - unfold on_read_message. destruct (get (users σ) sid) as [u|];
      [|by repeat split].
    pose proof (read_rooms_rel (username u) messageId (rooms σ)) as H.
    destruct (read_rooms (username u) messageId (rooms σ)) as [rooms' es].
    simpl in *. repeat split; simpl; try done.
    by rewrite (obj_rel_keys _ _ _ H).
  - unfold on_disconnect. simpl. destruct (get (users σ) sid);
      [|by repeat split].
    repeat split; simpl; auto using NoDup_keys_remove.
Qed.

Lemma run_keys_unique tr : ∀ σ, keys_unique σ → keys_unique (run tr σ).
Proof.
  induction tr as [|i tr IH]; intros σ H; simpl; [done|].
  apply IH. by apply step_keys_unique.
Qed.

Lemma init_keys_unique : keys_unique init.
Proof. repeat split; constructor. Qed.

Lemma user_ids_are_keys us :
  Forall (λ kv : string * User, user_id kv.2 = kv.1) us →
  map user_id (values us) = keys us.
Proof.
  induction 1 as [|[k u] us Hk _ IH]; simpl in *; [done|].
  by rewrite IH, Hk.
Qed.

(** X8: whatever the sequence of events, the online-user list (what
    [Object.values(users)] yields for the ["user_list"] broadcast and for
    [/api/users]) shows no socket id twice, and every entry's id field is the
    socket id of a connected socket. *)
Theorem user_list_has_distinct_ids tr :
  NoDup (map user_id (api_users (run tr init))) ∧
  Forall (λ u, connected (run tr init) (user_id u) = true)
    (api_users (run tr init)).
Proof.
  unfold api_users.
  destruct (run_keys_unique tr init init_keys_unique) as (Hu & _ & _).
  destruct (run_registry_ok tr init init_registry_ok) as (Hconn & _ & Hid).
  split; [by rewrite user_ids_are_keys|].
  apply Forall_forall. intros u Hin.
  apply (elem_of_values _ _ Hu) in Hin as [k Hk].
  rewrite Forall_forall in Hid.
  specialize (Hid (k, u) (get_Some_elem _ _ _ Hk)). simpl in Hid.
  unfold connected. apply bool_decide_eq_true. rewrite Hid. eauto.
Qed.

(** X9: on a switch by a registered session, the last packet emitted is the
    user listing of the room joined, addressed to that room, of which the
    switching socket is by then a member; the listing shows exactly the
    sessions whose current room, after the switch, is that room, the session
    that switched among them. *)
Theorem room_users_lists_the_room tr clk sid roomName u :
  connected (run tr init) sid = true →
  get (users (run tr init)) sid = Some u →
  ∃ payload listing,
    emitted (step clk sid (join_room roomName) (run tr init))
      = [ (InRoom sid, payload); (InRoom roomName, room_users listing) ] ∧
    sid ∈ recipients
            (sids (next (step clk sid (join_room roomName) (run tr init))))
            (InRoom roomName) ∧
    set_user_room u roomName ∈ listing ∧
    (∀ v, v ∈ listing
          ↔ ∃ s, get (users (next (step clk sid (join_room roomName)
                                      (run tr init)))) s = Some v
                 ∧ user_room v = roomName).
Proof.
  intros Hc Hu.
  destruct (step_keys_unique clk sid (join_room roomName) _
              (run_keys_unique tr init init_keys_unique)) as (Hk & _ & _).
  revert Hk. simpl. rewrite Hc. unfold on_join_room. rewrite Hu. simpl.
  intros Hk.
  assert (Hiff : ∀ w,
    w ∈ roomUsers (update sid (set_user_room u roomName)
                     (users (run tr init))) roomName
    ↔ ∃ s, get (update sid (set_user_room u roomName)
                  (users (run tr init))) s = Some w
           ∧ user_room w = roomName).
  { intros w. unfold roomUsers. rewrite list_elem_of_filter.
    rewrite (elem_of_values _ _ Hk). split.
    - intros [Hroom [s Hs]]. eauto.
    - intros (s & Hs & Hroom). eauto. }
  eexists _, _. split; [reflexivity|]. split; [|split; [|exact Hiff]].
  - apply elem_of_members_join. right. repeat split.
    destruct (decide _); [|rewrite dom_adapter_leave];
      by apply bool_decide_eq_true in Hc.
  - apply Hiff. exists sid. split; [|done].
    by rewrite get_update, decide_True, Hu.
Qed.

(** ann moves to "tech": the listing for "tech" is sent to the room, where
    she now is, and shows her. *)
Lemma room_users_lists_the_room_witness :
  ∃ payload listing,
    emitted (step (at_time 5) "s1" (join_room "tech")
               (run Sample.two_joined init))
      = [ (InRoom "s1", payload); (InRoom "tech", room_users listing) ] ∧
    "s1" ∈ recipients
             (sids (next (step (at_time 5) "s1" (join_room "tech")
                            (run Sample.two_joined init))))
             (InRoom "tech") ∧
    set_user_room (mkUser "ann" "s1" "global") "tech" ∈ listing ∧
    (∀ v, v ∈ listing
          ↔ ∃ s, get (users (next (step (at_time 5) "s1" (join_room "tech")
                                      (run Sample.two_joined init)))) s
                 = Some v
                 ∧ user_room v = "tech").
Proof.
  refine (room_users_lists_the_room Sample.two_joined (at_time 5) "s1" "tech"
            (mkUser "ann" "s1" "global") _ _);
    vm_compute; reflexivity.
Defined.

(** ** Sessions are served in their current room *)

Lemma step_in_current_room clk sid ev σ :
  in_current_room σ → in_current_room (next (step clk sid ev σ)).
Proof.
  intros Hin.
  destruct ev; simpl; destruct (connected σ sid) eqn:Hc; simpl;
    try exact Hin.
  - (* connection of a new socket *)
    apply bool_decide_eq_false in Hc. intros s u Hs. simpl in *.
    destruct (Hin s u Hs) as (rs & Hrs & Hr).
    exists rs. split; [|done]. rewrite lookup_insert_ne; [done|].
    intros <-. apply Hc, elem_of_dom. eauto.
  - (* user_join *)
    apply bool_decide_eq_true, elem_of_dom in Hc as [rs0 Hrs0].
    intros s u. simpl. rewrite get_set. unfold adapter_join.
    destruct (decide (sid = s)) as [<-|Hne].
    + intros [= <-]. rewrite lookup_alter_eq, Hrs0. simpl.
      eexists. split; [done|]. apply elem_of_union. left.
      by apply elem_of_singleton.
    + intros Hs. rewrite lookup_alter_ne by done. by apply Hin.
  - (* join_room *)
    unfold on_join_room.
    destruct (get (users σ) sid) as [u0|] eqn:Hu; [|exact Hin].
    intros s u. simpl. rewrite get_update. unfold adapter_join.
    destruct (decide (sid = s)) as [<-|Hne].
    + rewrite Hu. simpl. intros [= <-]. rewrite lookup_alter_eq.
      destruct (Hin sid u0 Hu) as (rs0 & Hrs0 & _).
      assert (∃ rs1, (if decide (user_room u0 = EmptyString) then sids σ
                      else adapter_leave sid (user_room u0) (sids σ)) !! sid
                     = Some rs1) as [rs1 ->].
      { destruct (decide _); [eauto|].
        unfold adapter_leave. rewrite lookup_alter_eq, Hrs0. simpl. eauto. }
      simpl. eexists. split; [done|]. apply elem_of_union. left.
      by apply elem_of_singleton.
    + intros Hs. rewrite lookup_alter_ne by done.
      destruct (decide (user_room u0 = EmptyString)); [by apply Hin|].
      unfold adapter_leave. rewrite lookup_alter_ne by done. by apply Hin.
  - unfold on_send_message. destruct (get (users σ) sid); [push_cases|]; exact Hin.
  - unfold on_private_message. destruct (get (users σ) sid); exact Hin.
  - unfold on_send_file. destruct (get (users σ) sid); [push_cases|]; exact Hin.
  - unfold on_typing. destruct (get (users σ) sid); exact Hin.
  - unfold on_react_message.
    destruct (react_rooms sid messageId r (rooms σ)); exact Hin.
  - unfold on_read_message. destruct (get (users σ) sid) as [u|]; [|exact Hin].
    destruct (read_rooms (username u) messageId (rooms σ)); exact Hin.
  - (* disconnect *)
    unfold on_disconnect. simpl.
    destruct (get (users σ) sid) as [u0|] eqn:Hu; intros s u; simpl.
    + rewrite get_remove. destruct (decide (sid = s)); [done|].
      intros Hs. rewrite lookup_delete_ne by done. by apply Hin.
    + intros Hs. rewrite lookup_delete_ne by congruence. by apply Hin.
Qed.

Lemma run_in_current_room tr : ∀ σ,
  in_current_room σ → in_current_room (run tr σ).
Proof.
  induction tr as [|i tr IH]; intros σ H; simpl; [done|].
  apply IH. by apply step_in_current_room.
Qed.

(** X10: whatever the sequence of events (also with repeated joins, empty
    room names or rooms named like sockets), every session's socket is a
    member of the session's current room: a session is never cut off from the
    room the server records for it. *)
Theorem session_is_member_of_its_room tr sid u :
  get (users (run tr init)) sid = Some u →
  sid ∈ members (sids (run tr init)) (user_room u).
Proof.
  intros Hu. apply elem_of_members.
  apply (run_in_current_room tr init); [|done].
  intros s v Hs. done.
Qed.

(** ann after joining twice: her current room is "global" and she is in it. *)
Lemma session_is_member_of_its_room_witness :
  "s1" ∈ members (sids (run Sample.ann_rejoins init))
         (user_room (mkUser "ann" "s1" "global")).
Proof.
  apply (session_is_member_of_its_room Sample.ann_rejoins "s1"
           (mkUser "ann" "s1" "global")).
  vm_compute. reflexivity.
Defined.

(** X11: a room message or a file, sent by a registered session after any
    sequence of events while its current room is not named like a property
    that [rooms] inherits from [Object.prototype], reaches exactly the
    members of the sender's current room, and the sender is one of them:
    senders get their own messages back. *)
Theorem room_message_reaches_the_room tr clk sid text fname fdata u :
  connected (run tr init) sid = true →
  get (users (run tr init)) sid = Some u →
  inherited (user_room u) = false →
  reached (step clk sid (send_message text) (run tr init))
    = members (sids (run tr init)) (user_room u) ∧
  reached (step clk sid (send_file fname fdata) (run tr init))
    = members (sids (run tr init)) (user_room u) ∧
  sid ∈ members (sids (run tr init)) (user_room u).
Proof.
  intros Hc Hu Hown. split; [|split].
  - unfold reached, deliveries. simpl. rewrite Hc.
    unfold on_send_message. rewrite Hu.
    unfold push_message. rewrite Hown, andb_false_r. simpl.
    apply set_eq. intros x. rewrite elem_of_union, elem_of_empty. tauto.
  - unfold reached, deliveries. simpl. rewrite Hc.
    unfold on_send_file. rewrite Hu.
    unfold push_message. rewrite Hown, andb_false_r. simpl.
    apply set_eq. intros x. rewrite elem_of_union, elem_of_empty. tauto.
  - apply elem_of_members.
    apply (run_in_current_room tr init); [|done]. by intros s v Hs.
Qed.

(** ann, in "tech", writes: her own socket is the one the message reaches. *)
Lemma room_message_reaches_the_room_witness :
  reached (step (at_time 6) "s1" (send_message "hi")
             (run Sample.ann_switches init))
    = members (sids (run Sample.ann_switches init))
        (user_room (mkUser "ann" "s1" "tech")) ∧
  reached (step (at_time 6) "s1" (send_file "f" "d")
             (run Sample.ann_switches init))
    = members (sids (run Sample.ann_switches init))
        (user_room (mkUser "ann" "s1" "tech")) ∧
  "s1" ∈ members (sids (run Sample.ann_switches init))
         (user_room (mkUser "ann" "s1" "tech")).
Proof.
  apply (room_message_reaches_the_room Sample.ann_switches (at_time 6) "s1"
           "hi" "f" "d" (mkUser "ann" "s1" "tech")); vm_compute; reflexivity.
Defined.

(** ** What every logged message satisfies *)

Lemma update_first_Forall (Q : Message → Prop) p f l :
  (∀ m, Q m → Q (f m)) → Forall Q l → Forall Q (update_first p f l).
Proof.
  intros Hf. induction 1 as [|m l Hm Hl IH]; simpl; [constructor|].
  destruct (p m); constructor; auto.
Qed.

Lemma update_first_Forall_found (Q : Message → Prop) p f l msg :
  find p l = Some msg → Q (f msg) → Forall Q l →
  Forall Q (update_first p f l).
Proof.
  intros Hfind Hmsg. induction 1 as [|m l Hm Hl IH]; simpl in *; [constructor|].
  destruct (p m).
  - injection Hfind as ->. by constructor.
  - constructor; auto.
Qed.

Lemma react_rooms_get sid messageId r rs k l' :
  get (react_rooms sid messageId r rs).1 k = Some l' →
  ∃ l, get rs k = Some l ∧
       (l' = l ∨
        l' = update_first (has_id messageId)
               (push_reaction (mkReaction sid r)) l).
Proof.
  induction rs as [|[room log] rest IH]; simpl; [done|].
  destruct (find (has_id messageId) log).
  - simpl. destruct (decide (k = room)); [|eauto].
    intros [= <-]. eauto.
  - destruct (react_rooms sid messageId r rest) as [rest' es]. simpl in *.
    destruct (decide (k = room)); [|done]. intros [= <-]. eauto.
Qed.

Lemma step_logs_satisfy (Q : string → Message → Prop) clk sid ev σ :
  (∀ r m x, Q r m → Q r (push_reaction x m)) →
  (∀ r m name, Q r m → name ∉ readers m → Q r (push_reader name m)) →
  (∀ r c data, d_room data = Some r → d_isPrivate data = None →
     Q r (createMessage c data)) →
  logs_satisfy Q σ → logs_satisfy Q (next (step clk sid ev σ)).
Proof.
  intros Hreact Hread Hnew Hσ.
  assert (Hpush : ∀ u m, Q (user_room u) m →
            logs_satisfy Q
              {| users := users σ;
                 rooms := append_log (user_room u) m (rooms σ);
                 typingUsers := typingUsers σ; sids := sids σ |}).
  { intros u m Hm r log. simpl. rewrite append_log_get.
    destruct (decide (user_room u = r)) as [<-|]; [|by apply Hσ].
    intros [= <-]. apply Forall_app. split; [|by repeat constructor].
    destruct (get (rooms σ) (user_room u)) as [l|] eqn:Hl; simpl;
      [by eapply Hσ | constructor]. }
  destruct ev; simpl; destruct (connected σ sid); simpl; try exact Hσ.
  - unfold on_join_room. destruct (get (users σ) sid); [|exact Hσ].
    intros r log. simpl.
    destruct (has (rooms σ) roomName); [by apply Hσ|].
    destruct (inherited roomName); [by apply Hσ|].
    rewrite get_set. destruct (decide (roomName = r)); [|by apply Hσ].
    intros [= <-]. constructor.
  - unfold on_send_message. destruct (get (users σ) sid) as [u|]; [|exact Hσ].
    push_cases; [exact Hσ|]. by apply Hpush, Hnew.
  - unfold on_private_message. destruct (get (users σ) sid); exact Hσ.
  - unfold on_send_file. destruct (get (users σ) sid) as [u|]; [|exact Hσ].
    push_cases; [exact Hσ|]. by apply Hpush, Hnew.
  - unfold on_typing. destruct (get (users σ) sid); exact Hσ.
  - unfold on_react_message.
    pose proof (react_rooms_get sid messageId r (rooms σ)) as H.
    destruct (react_rooms sid messageId r (rooms σ)) as [rooms' es].
    intros k l' Hk. simpl in *.
    destruct (H k l' Hk) as (l & Hl & [->| ->]); [by eapply Hσ|].
    apply update_first_Forall; [by intros; apply Hreact | by eapply Hσ].
  - unfold on_read_message. destruct (get (users σ) sid) as [u|]; [|exact Hσ].
    pose proof (read_rooms_get (username u) messageId (rooms σ)) as H.
    destruct (read_rooms (username u) messageId (rooms σ)) as [rooms' es].
    intros k l' Hk. simpl in *. rewrite H in Hk.
    destruct (get (rooms σ) k) as [l|] eqn:Hl; [|done].
    simpl in Hk. injection Hk as <-. specialize (Hσ k l Hl).
    unfold read_log.
    destruct (find (has_id messageId) l) as [msg|] eqn:Hfind; [|done].
    destruct (decide (username u ∈ readers msg)); [done|]. simpl.
    eapply update_first_Forall_found; [done | | done].
    apply Hread; [|done]. rewrite Forall_forall in Hσ. apply Hσ.
    apply find_some in Hfind as [Hin _]. by apply list_elem_of_In.
  - unfold on_disconnect. simpl. destruct (get (users σ) sid); exact Hσ.
Qed.

Lemma run_logs_satisfy (Q : string → Message → Prop) tr :
  (∀ r m x, Q r m → Q r (push_reaction x m)) →
  (∀ r m name, Q r m → name ∉ readers m → Q r (push_reader name m)) →
  (∀ r c data, d_room data = Some r → d_isPrivate data = None →
     Q r (createMessage c data)) →
  ∀ r m, m ∈ room_log (run tr init) r → Q r m.
Proof.
  intros H1 H2 H3.
  assert (H : ∀ σ, logs_satisfy Q σ → logs_satisfy Q (run tr σ)).
  { induction tr as [|i tr IH]; intros σ Hσ; simpl; [done|].
    apply IH. by apply step_logs_satisfy. }
  intros r m Hm. unfold room_log in Hm.
  destruct (get (rooms (run tr init)) r) as [l|] eqn:Hl;
    [|by apply elem_of_nil in Hm].
  specialize (H init). simpl in Hm.
  assert (Hall : Forall (Q r) l) by (eapply H; [done | exact Hl]).
  rewrite Forall_forall in Hall. by apply Hall.
Qed.

(** X12: in every log, whatever the sequence of events, a reader's name
    occurs at most once in a message's reader list. *)
Theorem readers_never_repeat tr r m :
  m ∈ room_log (run tr init) r → NoDup (readers m).
Proof.
  apply (run_logs_satisfy (λ _ m, NoDup (readers m))).
  - done.
  - intros _ m0 name Hm Hname. simpl. apply NoDup_app.
    split; [done|]. split; [|apply NoDup_singleton].
    intros x Hx ->%list_elem_of_singleton. done.
  - intros. simpl. constructor.
Qed.

(** ann's first message, after bob has acknowledged it. *)
Lemma readers_never_repeat_witness :
  NoDup (readers (push_reader "bob" Sample.first_message)).
Proof.
  apply (readers_never_repeat
           (Sample.same_millisecond ++ [Sample.input 9 "s2" (read_message 5)])
           "global").
  vm_compute. left.
Defined.

(** X13: no private message is ever in a log, and every logged message is
    labelled with the room it is logged under, except under the empty room
    name, where the label is "global". *)
Theorem logged_messages_are_labelled tr r m :
  m ∈ room_log (run tr init) r →
  isPrivate m = false ∧ msg_room m = Some (room_label r).
Proof.
  apply (run_logs_satisfy
           (λ r m, isPrivate m = false ∧ msg_room m = Some (room_label r))).
  - done.
  - done.
  - intros r0 c data Hroom Hpriv. unfold createMessage. simpl.
    rewrite Hroom, Hpriv. split; [done|].
    unfold js_or, truthy, room_label. by destruct (decide (r0 = EmptyString)).
Qed.

(** ann writes while her current room is the one with the empty name: the
    message is logged under that name and labelled "global". *)
Lemma logged_messages_are_labelled_witness :
  isPrivate (createMessage (at_time 6)
               (mkData "ann" "s1" (Some "hi") (Some "") None None None))
    = false ∧
  msg_room (createMessage (at_time 6)
              (mkData "ann" "s1" (Some "hi") (Some "") None None None))
    = Some (room_label "").
Proof.
  apply (logged_messages_are_labelled
           (Sample.two_joined ++ [Sample.input 5 "s1" (join_room "");
                                  Sample.input 6 "s1" (send_message "hi")])
           "").
  vm_compute. left.
Defined.

(** ** Counting reactions *)

Section ObjSums.
Context {V : Type} (f : V → nat).
Implicit Types (o : obj V) (k : string) (v : V).

Lemma sum_update k v o old :
  get o k = Some old →
  (sum_list_with (λ kv : string * V, f kv.2) (update k v o) + f old
   = sum_list_with (λ kv : string * V, f kv.2) o + f v)%nat.
Proof.
  induction o as [|[k0 v0] o IH]; simpl; [done|].
  destruct (decide (k = k0)) as [->|]; simpl.
  - intros [= ->]. lia.
  - intros H. specialize (IH H). lia.
Qed.

Lemma sum_create k v o :
  (sum_list_with (λ kv : string * V, f kv.2) (create k v o)
   = sum_list_with (λ kv : string * V, f kv.2) o + f v)%nat.
Proof.
  induction o as [|[k0 v0] o IH]; simpl; [lia|].
  destruct (key_before k k0); simpl; lia.
Qed.

End ObjSums.

Lemma stored_push r m rs :
  reactions m = [] →
  sum_list_with (λ kv : string * list Message, log_reactions kv.2)
    (append_log r m rs)
  = sum_list_with (λ kv : string * list Message, log_reactions kv.2) rs.
Proof.
  intros Hm. unfold append_log, set, has.
  assert (Hlog : ∀ l, log_reactions (l ++ [m]) = log_reactions l).
  { intros l. unfold log_reactions. rewrite sum_list_with_app. simpl.
    rewrite Hm. simpl. lia. }
  destruct (get rs r) as [old|] eqn:Hold.
  - pose proof (sum_update log_reactions r (default [] (Some old) ++ [m]) rs
                  old Hold) as H.
    rewrite Hlog in H. simpl in *. lia.
  - rewrite sum_create, Hlog. simpl. unfold log_reactions. simpl. lia.
Qed.

Lemma log_reactions_react p x l msg :
  find p l = Some msg →
  log_reactions (update_first p (push_reaction x) l) = S (log_reactions l).
Proof.
  unfold log_reactions.
  induction l as [|m l IH]; simpl; [done|].
  destruct (p m); simpl.
  - intros _. rewrite length_app. simpl. lia.
  - intros H. rewrite (IH H). lia.
Qed.

Lemma log_reactions_read p name l :
  log_reactions (update_first p (push_reader name) l) = log_reactions l.
Proof.
  unfold log_reactions. induction l as [|m l IH]; simpl; [done|].
  destruct (p m); simpl; [done | by rewrite IH].
Qed.

Lemma react_rooms_count sid messageId r rs :
  (sum_list_with (λ kv : string * list Message, log_reactions kv.2)
     (react_rooms sid messageId r rs).1
   = sum_list_with (λ kv : string * list Message, log_reactions kv.2) rs
     + reaction_notices (react_rooms sid messageId r rs).2)%nat.
Proof.
  induction rs as [|[room log] rest IH]; simpl; [done|].
  destruct (find (has_id messageId) log) as [msg|] eqn:Hfind; simpl.
  - rewrite (log_reactions_react _ _ _ msg Hfind). unfold reaction_notices.
    simpl. lia.
  - destruct (react_rooms sid messageId r rest) as [rest' es]. simpl in *.
    lia.
Qed.

Lemma read_rooms_count name messageId rs :
  sum_list_with (λ kv : string * list Message, log_reactions kv.2)
    (read_rooms name messageId rs).1
  = sum_list_with (λ kv : string * list Message, log_reactions kv.2) rs ∧
  reaction_notices (read_rooms name messageId rs).2 = 0%nat.
Proof.
  induction rs as [|[room log] rest [IH1 IH2]]; simpl; [done|].
  destruct (read_rooms name messageId rest) as [rest' es]. simpl in *.
  assert (Hl : log_reactions (read_log name messageId log).1
               = log_reactions log).
  { unfold read_log. destruct (find (has_id messageId) log) as [msg|]; [|done].
    destruct (decide (name ∈ readers msg)); [done|]. simpl.
    apply log_reactions_read. }
  destruct (read_log name messageId log) as [log' [rds|]]; simpl in *;
    rewrite Hl, IH1; split; try done.
Qed.

Lemma step_reaction_count clk sid ev σ :
  (stored_reactions (next (step clk sid ev σ))
   = stored_reactions σ + reaction_notices (emitted (step clk sid ev σ)))%nat.
Proof.
  unfold stored_reactions.
  destruct ev; simpl; destruct (connected σ sid); simpl;
    try (unfold reaction_notices; simpl; lia).
  - unfold on_join_room. destruct (get (users σ) sid); simpl;
      [|unfold reaction_notices; simpl; lia].
    unfold reaction_notices. simpl.
    destruct (has (rooms σ) roomName) eqn:Hr;
      [destruct (get _ roomName); simpl; lia|].
    destruct (inherited roomName); [destruct (get _ roomName); simpl; lia|].
    destruct (get _ roomName); simpl;
      unfold set; rewrite Hr, sum_create; unfold log_reactions; simpl; lia.
  - unfold on_send_message. destruct (get (users σ) sid); simpl;
      [|unfold reaction_notices; simpl; lia].
    push_cases; [unfold reaction_notices; simpl; lia|].
    rewrite stored_push by done. unfold reaction_notices. simpl. lia.
  - unfold on_private_message. destruct (get (users σ) sid); simpl;
      unfold reaction_notices; simpl; lia.
  - unfold on_send_file. destruct (get (users σ) sid); simpl;
      [|unfold reaction_notices; simpl; lia].
    push_cases; [unfold reaction_notices; simpl; lia|].
    rewrite stored_push by done. unfold reaction_notices. simpl. lia.
  - unfold on_typing. destruct (get (users σ) sid); simpl;
      unfold reaction_notices; simpl; lia.
  - unfold on_react_message.
    pose proof (react_rooms_count sid messageId r (rooms σ)) as H.
    by destruct (react_rooms sid messageId r (rooms σ)).
  - unfold on_read_message. destruct (get (users σ) sid) as [u|]; simpl;
      [|unfold reaction_notices; simpl; lia].
    destruct (read_rooms_count (username u) messageId (rooms σ)) as [H1 H2].
    destruct (read_rooms (username u) messageId (rooms σ)). simpl in *. lia.
  - unfold on_disconnect. simpl. destruct (get (users σ) sid); simpl;
      unfold reaction_notices; simpl; lia.
Qed.

Lemma run_reaction_count tr : ∀ σ,
  (stored_reactions (run tr σ)
   = stored_reactions σ + reaction_notices (all_emitted tr σ))%nat.
Proof.
  induction tr as [|i tr IH]; intros σ; simpl.
  - unfold all_emitted, reaction_notices. simpl. lia.
  - rewrite IH. unfold step_in at 1.
    rewrite step_reaction_count. unfold all_emitted. simpl.
    unfold reaction_notices at 3. rewrite sum_list_with_app.
    unfold reaction_notices, step_in. lia.
Qed.

Lemma find_existsb {A} (p : A → bool) (l : list A) :
  existsb p l = bool_decide (is_Some (find p l)).
Proof.
  induction l as [|x l IH]; simpl; [done|]. by destruct (p x).
Qed.

Lemma react_rooms_notices sid messageId r rs :
  reaction_notices (react_rooms sid messageId r rs).2
  = if holds_id messageId rs then 1%nat else 0%nat.
Proof.
  unfold holds_id.
  induction rs as [|[room log] rest IH]; simpl; [done|].
  rewrite find_existsb.
  destruct (find (has_id messageId) log) as [msg|] eqn:Hfind; simpl.
  - done.
  - by destruct (react_rooms sid messageId r rest) as [rest' es].
Qed.

Lemma step_notices clk sid ev σ :
  reaction_notices (emitted (step clk sid ev σ)) = reactions_added σ sid ev.
Proof.
  unfold reactions_added.
  destruct ev; simpl; destruct (connected σ sid); simpl; try done.
  - unfold on_join_room. destruct (get (users σ) sid); [|done].
    unfold reaction_notices. simpl. by destruct (get _ roomName).
  - unfold on_send_message. destruct (get (users σ) sid); [push_cases|]; done.
  - unfold on_private_message. by destruct (get (users σ) sid).
  - unfold on_send_file. destruct (get (users σ) sid); [push_cases|]; done.
  - unfold on_typing. by destruct (get (users σ) sid).
  - unfold on_react_message.
    pose proof (react_rooms_notices sid messageId r (rooms σ)) as H.
    by destruct (react_rooms sid messageId r (rooms σ)).
  - unfold on_read_message. destruct (get (users σ) sid) as [u|]; [|done].
    destruct (read_rooms_count (username u) messageId (rooms σ)) as [_ H].
    by destruct (read_rooms (username u) messageId (rooms σ)).
  - unfold on_disconnect. simpl. by destruct (get (users σ) sid).
Qed.

(** X14: reactions are never lost, merged or de-duplicated.  A reaction sent
    by a connected socket for an id that some log holds adds exactly one
    stored reaction and one ["message_reaction"] notification, whatever
    reactions the message already carries (so also when the same socket
    repeats the same reaction); every other event adds neither.  Hence,
    after any sequence of events, the number of reactions stored in the logs
    equals the number of notifications emitted so far. *)
Theorem reactions_stored_equal_notified clk sid ev σ tr :
  stored_reactions (next (step clk sid ev σ))
    = (stored_reactions σ + reactions_added σ sid ev)%nat ∧
  reaction_notices (emitted (step clk sid ev σ)) = reactions_added σ sid ev ∧
  stored_reactions (run tr init) = reaction_notices (all_emitted tr init).
Proof.
  split; [|split].
  - by rewrite step_reaction_count, step_notices.
  - apply step_notices.
  - by rewrite run_reaction_count.
Qed.

(** ann reacts twice in the same way to message 6: both reactions are stored
    and both are announced. *)
Example repeated_reaction_is_stored_twice :
  map reactions
    (room_log (run [Sample.input 8 "s1" (react_message 6 "like");
                    Sample.input 9 "s1" (react_message 6 "like")]
                 (run Sample.three_sent init)) "global")
    = [ []; [mkReaction "s1" "like"; mkReaction "s1" "like"]; [] ] ∧
  all_emitted [Sample.input 8 "s1" (react_message 6 "like");
               Sample.input 9 "s1" (react_message 6 "like")]
    (run Sample.three_sent init)
    = [ (InRoom "global", message_reaction 6 "like");
        (InRoom "global", message_reaction 6 "like") ].
Proof. split; vm_compute; reflexivity. Qed.

(** ** Typing marks *)

Section JsObjRoundTrips.
Context {V : Type}.
Implicit Types (o : obj V) (k : string) (v : V).

Lemma remove_absent k o : get o k = None → remove k o = o.
Proof.
  induction o as [|[k0 v0] o IH]; simpl; [done|].
  destruct (decide (k = k0)); [done|]. intros H. by rewrite IH.
Qed.

Lemma remove_create k v o : get o k = None → remove k (create k v o) = o.
Proof.
  induction o as [|[k0 v0] o IH]; simpl.
  - by rewrite decide_True.
  - destruct (decide (k = k0)) as [->|Hne]; [done|]. intros H.
    destruct (key_before k k0); simpl.
    + rewrite decide_True, decide_False by done. by rewrite remove_absent.
    + rewrite decide_False by done. by rewrite IH.
Qed.

Lemma update_same k v o : get o k = Some v → update k v o = o.
Proof.
  induction o as [|[k0 v0] o IH]; simpl; [done|].
  destruct (decide (k = k0)) as [->|]; [by intros [= ->]|].
  intros H. by rewrite IH.
Qed.

End JsObjRoundTrips.

(** X15: when a registered session reports that it is typing, its name is
    recorded under its socket id, the other marks stay as they were, the new
    list of names is broadcast to everyone, and reporting it again changes
    nothing. *)
Theorem typing_on_is_recorded clk clk' sid σ u :
  connected σ sid = true →
  get (users σ) sid = Some u →
  get (typingUsers (next (step clk sid (typing true) σ))) sid
    = Some (username u) ∧
  (∀ s, s ≠ sid →
     get (typingUsers (next (step clk sid (typing true) σ))) s
     = get (typingUsers σ) s) ∧
  emitted (step clk sid (typing true) σ)
    = [(Everyone,
        typing_users (values (typingUsers (next (step clk sid (typing true) σ)))))] ∧
  next (step clk' sid (typing true) (next (step clk sid (typing true) σ)))
    = next (step clk sid (typing true) σ).
Proof.
  intros Hc Hu. simpl. rewrite Hc. unfold on_typing. rewrite Hu. simpl.
  split; [by rewrite get_set, decide_True|].
  split; [intros s Hs; by rewrite get_set, decide_False|].
  split; [done|].
  unfold connected in *. simpl. rewrite Hc, Hu. simpl. f_equal.
  unfold set at 1. unfold has. rewrite get_set, decide_True by done.
  apply update_same. by rewrite get_set, decide_True.
Qed.

(** ann starts typing. *)
Lemma typing_on_is_recorded_witness :
  get (typingUsers (next (step (at_time 5) "s1" (typing true)
                            (run Sample.two_joined init)))) "s1"
    = Some (username (mkUser "ann" "s1" "global")) ∧
  emitted (step (at_time 5) "s1" (typing true) (run Sample.two_joined init))
    = [(Everyone,
        typing_users
          (values (typingUsers (next (step (at_time 5) "s1" (typing true)
                                        (run Sample.two_joined init))))))].
Proof.
  destruct (typing_on_is_recorded (at_time 5) (at_time 6) "s1"
              (run Sample.two_joined init) (mkUser "ann" "s1" "global"))
    as (H1 & _ & H3 & _).
  - vm_compute; reflexivity.
  - vm_compute; reflexivity.
  - split; [exact H1 | exact H3].
Defined.

(** X16: for a registered session that is not marked as typing, switching the
    mark on and off again restores the table of typing marks exactly; and
    switching it off when it is not on leaves the state as it is but still
    broadcasts the list of names. *)
Theorem typing_off_restores clk clk' sid σ u :
  connected σ sid = true →
  get (users σ) sid = Some u →
  get (typingUsers σ) sid = None →
  typingUsers (next (step clk' sid (typing false)
                       (next (step clk sid (typing true) σ))))
    = typingUsers σ ∧
  next (step clk sid (typing false) σ) = σ ∧
  emitted (step clk sid (typing false) σ)
    = [(Everyone, typing_users (values (typingUsers σ)))].
Proof.
  intros Hc Hu Ht. simpl. rewrite Hc. unfold on_typing. rewrite Hu. simpl.
  unfold connected in *. simpl. rewrite Hc, Hu. simpl.
  rewrite (remove_absent sid (typingUsers σ)) by done.
  split; [|split; [by destruct σ | done]].
  unfold set, has. rewrite Ht. by apply remove_create.
Qed.

(** ann, not typing, switches the mark on and off. *)
Lemma typing_off_restores_witness :
  typingUsers (next (step (at_time 6) "s1" (typing false)
                       (next (step (at_time 5) "s1" (typing true)
                                (run Sample.two_joined init)))))
    = typingUsers (run Sample.two_joined init) ∧
  next (step (at_time 5) "s1" (typing false) (run Sample.two_joined init))
    = run Sample.two_joined init ∧
  emitted (step (at_time 5) "s1" (typing false) (run Sample.two_joined init))
    = [(Everyone, typing_users (values (typingUsers (run Sample.two_joined init))))].
Proof.
  apply (typing_off_restores (at_time 5) (at_time 6) "s1"
           (run Sample.two_joined init) (mkUser "ann" "s1" "global"));
    vm_compute; reflexivity.
Defined.

(** ** The online-user list clients are told *)

Lemma who_update sid u r us :
  get us sid = Some u →
  map who (values (update sid (set_user_room u r) us)) = map who (values us).
Proof.
  induction us as [|[k0 v0] us IH]; simpl; [done|].
  destruct (decide (sid = k0)) as [->|]; simpl.
  - by intros [= ->].
  - intros H. by rewrite IH.
Qed.

Lemma react_rooms_no_user_list sid messageId r rs :
  omap broadcast_user_list (react_rooms sid messageId r rs).2 = [].
Proof.
  induction rs as [|[room log] rest IH]; simpl; [done|].
  destruct (find (has_id messageId) log); [done|].
  by destruct (react_rooms sid messageId r rest).
Qed.

Lemma read_rooms_no_user_list name messageId rs :
  omap broadcast_user_list (read_rooms name messageId rs).2 = [].
Proof.
  induction rs as [|[room log] rest IH]; simpl; [done|].
  destruct (read_rooms name messageId rest).
  by destruct (read_log name messageId log) as [? [?|]].
Qed.

(** One event either broadcasts the whole new list as its last ["user_list"],
    or broadcasts no list and leaves ids and names as they were. *)
Lemma step_user_list clk sid ev σ :
  last_user_list (emitted (step clk sid ev σ))
    = Some (values (users (next (step clk sid ev σ)))) ∨
  (omap broadcast_user_list (emitted (step clk sid ev σ)) = [] ∧
   map who (values (users (next (step clk sid ev σ))))
   = map who (values (users σ))).
Proof.
  unfold last_user_list.
  destruct ev; simpl; destruct (connected σ sid); simpl; auto.
  - unfold on_join_room. destruct (get (users σ) sid) as [u|] eqn:Hu; simpl;
      [|auto].
    right. split; [done|]. by apply who_update.
  - unfold on_send_message. destruct (get (users σ) sid); [push_cases|];
      simpl; auto.
  - unfold on_private_message. destruct (get (users σ) sid); simpl; auto.
  - unfold on_send_file. destruct (get (users σ) sid); [push_cases|];
      simpl; auto.
  - unfold on_typing. destruct (get (users σ) sid); simpl; auto.
  - unfold on_react_message.
    pose proof (react_rooms_no_user_list sid messageId r (rooms σ)) as H.
    destruct (react_rooms sid messageId r (rooms σ)). simpl in *. auto.
  - unfold on_read_message. destruct (get (users σ) sid) as [u|]; simpl;
      [|auto].
    pose proof (read_rooms_no_user_list (username u) messageId (rooms σ)) as H.
    destruct (read_rooms (username u) messageId (rooms σ)). simpl in *. auto.
  - unfold on_disconnect. simpl. destruct (get (users σ) sid); simpl; auto.
Qed.

Lemma run_user_list tr : ∀ σ es0,
  map who (default [] (last_user_list es0)) = map who (values (users σ)) →
  map who (default [] (last_user_list (es0 ++ all_emitted tr σ)))
  = map who (values (users (run tr σ))).
Proof.
  induction tr as [|i tr IH]; intros σ es0 H0; simpl.
  - unfold all_emitted. simpl. by rewrite app_nil_r.
  - unfold all_emitted. simpl. rewrite app_assoc.
    apply (IH (next (step_in i σ)) (es0 ++ emitted (step_in i σ))).
    unfold last_user_list in *. rewrite omap_app, last_app.
    destruct (step_user_list (in_clock i) (in_sid i) (in_event i) σ)
      as [Hlast|[Hnone Hsame]]; unfold step_in.
    + unfold last_user_list in Hlast. by rewrite Hlast.
    + rewrite Hnone. simpl. by rewrite Hsame.
Qed.

(** X17: after any sequence of events, the online-user list most recently
    broadcast (none counts as the empty list) names exactly the sessions the
    server holds (what [/api/users] returns), in the same order: same socket
    ids, same names.  Only the room fields can be out of date, since a room
    switch broadcasts no list. *)
Theorem last_user_list_is_current tr :
  map who (default [] (last_user_list (all_emitted tr init)))
  = map who (api_users (run tr init)).
Proof. unfold api_users. by apply (run_user_list tr init []). Qed.

(** The room field of the broadcast list does go out of date: after ann's
    move to "tech" the last list still shows her in "global". *)
Example last_user_list_room_is_stale :
  last_user_list (all_emitted Sample.ann_switches init)
    = Some [mkUser "ann" "s1" "global"; mkUser "bob" "s2" "global"] ∧
  values (users (run Sample.ann_switches init))
    = [mkUser "ann" "s1" "tech"; mkUser "bob" "s2" "global"].
Proof. split; vm_compute; reflexivity. Qed.

(* ================================================================== *)
(** * The client: unread counters and the message pane *)

Lemma sum_values (o : obj nat) :
  sum_list (values o) = sum_list_with (λ kv : string * nat, kv.2) o.
Proof. induction o as [|[k n] o IH]; simpl; [done | by rewrite IH]. Qed.

Lemma totalUnread_set (o : obj nat) k n :
  (sum_list (values (set k n o)) + default 0 (get o k)
   = sum_list (values o) + n)%nat.
Proof.
  rewrite !sum_values. unfold set, has.
  destruct (get o k) as [old|] eqn:Hk; simpl.
  - apply (sum_update (λ n : nat, n) k n o old Hk).
  - rewrite (sum_create (λ n : nat, n)). lia.
Qed.

(** X18: a message received by the client is appended to its messages and a
    sound is played.  A room message is in view when its room is the current
    room, a private message when its sender is the selected peer.  For a
    message in view no counter changes and nothing else happens; for any
    other message a notification is shown and exactly one unread counter goes
    up by one, the one named by the sender's id for a private message and by
    the message's room for a room message, so that the total of unread
    messages goes up by one.  (The counter's name is taken not to be one that
    the counters object inherits from [Object.prototype].) *)
Theorem receive_counts_unread msg v key :
  key = (if isPrivate msg then senderId msg
         else match msg_room msg with Some r => r | None => "null" end) →
  inherited key = false →
  Hook.messages (Hook.handleReceiveMessage msg v).1
    = Hook.messages v ++ [Hook.Chat msg] ∧
  Hook.currentRoom (Hook.handleReceiveMessage msg v).1 = Hook.currentRoom v ∧
  Hook.privateTo (Hook.handleReceiveMessage msg v).1 = Hook.privateTo v ∧
  (isPrivate msg = false → msg_room msg = Some (Hook.currentRoom v) →
     Hook.unreadCounts (Hook.handleReceiveMessage msg v).1
       = Hook.unreadCounts v ∧
     (Hook.handleReceiveMessage msg v).2 = [Hook.PlaySound]) ∧
  (isPrivate msg = true →
   user_id <$> Hook.privateTo v = Some (senderId msg) →
     Hook.unreadCounts (Hook.handleReceiveMessage msg v).1
       = Hook.unreadCounts v ∧
     (Hook.handleReceiveMessage msg v).2 = [Hook.PlaySound]) ∧
  ((isPrivate msg = false ∧ msg_room msg ≠ Some (Hook.currentRoom v)) ∨
   (isPrivate msg = true ∧
    user_id <$> Hook.privateTo v ≠ Some (senderId msg)) →
     get (Hook.unreadCounts (Hook.handleReceiveMessage msg v).1) key
       = Some (default 0 (get (Hook.unreadCounts v) key) + 1)%nat ∧
     (∀ k, k ≠ key →
        get (Hook.unreadCounts (Hook.handleReceiveMessage msg v).1) k
        = get (Hook.unreadCounts v) k) ∧
     Hook.totalUnread (Hook.handleReceiveMessage msg v).1
       = (Hook.totalUnread v + 1)%nat ∧
     ∃ title,
       (Hook.handleReceiveMessage msg v).2
         = [Hook.PlaySound; Hook.ShowNotification title (message msg)]).
Proof.
  intros Hkey _.
  unfold Hook.handleReceiveMessage, Hook.isCurrentRoom, Hook.unread_key,
    Hook.as_text, Hook.totalUnread.
  rewrite <- Hkey. clear Hkey.
  destruct (isPrivate msg); simpl.
  - (* a private message *)
    split; [|split; [|split; [|split; [|split]]]].
    + by destruct (bool_decide _).
    + by destruct (bool_decide _).
    + by destruct (bool_decide _).
    + discriminate.
    + intros _ Hpeer. by rewrite bool_decide_eq_true_2.
    + intros [[? _]|[_ Hpeer]]; [discriminate|].
      rewrite bool_decide_eq_false_2 by done. simpl.
      split; [by rewrite get_set, decide_True|]. split.
      { intros k Hk. by rewrite get_set, decide_False. }
      split; [|by eexists].
      pose proof (totalUnread_set (Hook.unreadCounts v) key
                    (default 0 (get (Hook.unreadCounts v) key) + 1)%nat) as H.
      lia.
  - (* a room message *)
    split; [|split; [|split; [|split; [|split]]]].
    + by destruct (bool_decide _).
    + by destruct (bool_decide _).
    + by destruct (bool_decide _).
    + intros _ Hroom. by rewrite bool_decide_eq_true_2.
    + discriminate.
    + intros [[_ Hroom]|[? _]]; [|discriminate].
      rewrite bool_decide_eq_false_2 by done. simpl.
      split; [by rewrite get_set, decide_True|]. split.
      { intros k Hk. by rewrite get_set, decide_False. }
      split; [|by eexists].
      pose proof (totalUnread_set (Hook.unreadCounts v) key
                    (default 0 (get (Hook.unreadCounts v) key) + 1)%nat) as H.
      lia.
Qed.

(** bob's client shows room "global" and has no peer selected; a message of
    room "tech" arrives. *)
Lemma receive_counts_unread_witness :
  get (Hook.unreadCounts
         (Hook.handleReceiveMessage
            (createMessage (at_time 6)
               (mkData "ann" "s1" (Some "hi") (Some "tech") None None None))
            Sample.client_in_global).1) "tech"
    = Some (default 0 (get (Hook.unreadCounts Sample.client_in_global) "tech")
            + 1)%nat ∧
  Hook.totalUnread
    (Hook.handleReceiveMessage
       (createMessage (at_time 6)
          (mkData "ann" "s1" (Some "hi") (Some "tech") None None None))
       Sample.client_in_global).1
    = (Hook.totalUnread Sample.client_in_global + 1)%nat.
Proof.
  destruct (receive_counts_unread
              (createMessage (at_time 6)
                 (mkData "ann" "s1" (Some "hi") (Some "tech") None None None))
              Sample.client_in_global "tech")
    as (_ & _ & _ & _ & _ & Hout).
  - vm_compute; reflexivity.
  - vm_compute; reflexivity.
  - destruct Hout as (Hk & _ & Ht & _).
    + left. split; [vm_compute; reflexivity|]. vm_compute. discriminate.
    + split; [exact Hk | exact Ht].
Defined.

(** X19: selecting a room on the client emits ["join_room"] for it, makes it
    the current and the selected room, clears the selected peer, and sets the
    room's unread counter to zero; besides that counter and the one named
    "undefined" (reset by the call of [selectPrivate(null)]) no counter
    changes, and the total of unread messages does not grow. *)
Theorem select_room_resets_unread room a :
  (Hook.handleSelectRoom room a).2 = [Hook.Emit (join_room room)] ∧
  Hook.selectedRoom (Hook.handleSelectRoom room a).1 = Some room ∧
  Hook.currentRoom (Hook.hook (Hook.handleSelectRoom room a).1) = room ∧
  Hook.privateTo (Hook.hook (Hook.handleSelectRoom room a).1) = None ∧
  Hook.messages (Hook.hook (Hook.handleSelectRoom room a).1)
    = Hook.messages (Hook.hook a) ∧
  (∀ k, get (Hook.unreadCounts (Hook.hook (Hook.handleSelectRoom room a).1)) k
        = if decide (k = room) then Some 0%nat
          else if decide (k = "undefined") then Some 0%nat
               else get (Hook.unreadCounts (Hook.hook a)) k) ∧
  (Hook.totalUnread (Hook.hook (Hook.handleSelectRoom room a).1)
   ≤ Hook.totalUnread (Hook.hook a))%nat.
Proof.
  unfold Hook.handleSelectRoom, Hook.joinRoom, Hook.selectPrivate,
    Hook.totalUnread. simpl.
  repeat split; try done.
  - intros k. rewrite !get_set.
    destruct (decide (room = k)) as [->|]; [by rewrite decide_True|].
    rewrite (decide_False (P := k = room)) by done.
    destruct (decide ("undefined" = k)) as [<-|]; [done|].
    by rewrite (decide_False (P := k = "undefined")).
  - pose proof (totalUnread_set (Hook.unreadCounts (Hook.hook a))
                  "undefined" 0%nat) as H1.
    pose proof (totalUnread_set
                  (set "undefined" 0%nat (Hook.unreadCounts (Hook.hook a)))
                  room 0%nat) as H2.
    lia.
Qed.

(** ** What the message pane shows *)

Section Pane.
Variable includes_ci : string → string → bool.

Lemma displayed_is_filter a (l : list Hook.Entry) :
  Hook.filter_throwing (Hook.matches_search includes_ci (Hook.searchQuery a))
    (List.filter (Hook.in_conversation a) l)
  = Some (List.filter (Hook.shown includes_ci a) l).
Proof.
  induction l as [|e l IH]; [done|]. cbn [List.filter].
  destruct (Hook.in_conversation a e) eqn:Hin.
  - cbn [Hook.filter_throwing]. rewrite IH.
    destruct e as [m|n]; [|discriminate].
    unfold Hook.matches_search, Hook.shown. rewrite Hin.
    destruct (decide (Hook.searchQuery a = EmptyString)) as [Hq|Hq].
    + by rewrite bool_decide_eq_true_2.
    + by rewrite bool_decide_eq_false_2.
  - rewrite IH. replace (Hook.shown includes_ci a e) with false; [done|].
    destruct e; [|done]. unfold Hook.shown. by rewrite Hin.
Qed.

(** X20: rendering the message pane never fails, although the search filter
    would throw on an entry without a sender: the pane is exactly the
    messages of the conversation in view that pass the search, in the order
    held, and the notices made by the client (joined, left) are never among
    them. *)
Theorem pane_shows_conversation a :
  Hook.displayedMessages includes_ci a
    = Some (List.filter (Hook.shown includes_ci a)
              (Hook.messages (Hook.hook a))) ∧
  (∀ n, Hook.System n ∉ default [] (Hook.displayedMessages includes_ci a)).
Proof.
  split; [apply displayed_is_filter|].
  intros n. unfold Hook.displayedMessages. rewrite displayed_is_filter.
  simpl. intros Hin. apply list_elem_of_In, filter_In in Hin as [_ H].
  discriminate.
Qed.


(** X22: the copy of a private message that the server sends back to its
    sender is, on the sender's client (unless the selected peer is the sender
    itself), counted as unread under the sender's own socket id, announced as
    a private message from the sender's own name, and never shown in the
    message pane. *)
Theorem own_private_message_echo clk sid to text σ u a :
  connected σ sid = true →
  get (users σ) sid = Some u →
  user_id <$> Hook.privateTo (Hook.hook a) ≠ Some sid →
  ∃ m,
    (Self sid, private_message_to_client m)
      ∈ emitted (step clk sid (private_message to text) σ) ∧
    get (Hook.unreadCounts (Hook.handleReceiveMessage m (Hook.hook a)).1) sid
      = Some (default 0 (get (Hook.unreadCounts (Hook.hook a)) sid) + 1)%nat ∧
    (Hook.handleReceiveMessage m (Hook.hook a)).2
      = [ Hook.PlaySound;
          Hook.ShowNotification ("Private message from " +:+ username u) text ] ∧
    Hook.Chat m
      ∉ default []
          (Hook.displayedMessages includes_ci
             (Hook.with_hook a (Hook.handleReceiveMessage m (Hook.hook a)).1)).
Proof.
  intros Hc Hu Hpeer. simpl. rewrite Hc. unfold on_private_message.
  rewrite Hu.
  remember (createMessage clk
              {| d_sender := username u; d_senderId := sid;
                 d_message := Some text; d_room := None;
                 d_isPrivate := Some true; d_fileData := None;
                 d_fileName := None |}) as m eqn:Hm.
  assert (Hfields : isPrivate m = true ∧ senderId m = sid
                    ∧ sender m = username u ∧ message m = text).
  { subst m. repeat split. unfold createMessage, js_or, truthy. simpl.
    by destruct (decide (text = EmptyString)) as [->|]. }
  clear Hm. destruct Hfields as (Hpriv & Hsid & Hname & Htext).
  exists m. split; [right; left|].
  assert (Hview : Hook.isCurrentRoom (Hook.hook a) m = false).
  { unfold Hook.isCurrentRoom. rewrite Hpriv, Hsid. simpl.
    by apply bool_decide_eq_false_2. }
  unfold Hook.handleReceiveMessage. rewrite Hview.
  unfold Hook.unread_key, Hook.notification_title.
  rewrite Hpriv, Hsid, Hname, Htext. cbn [fst snd].
  split; [cbn; by rewrite get_set, decide_True|]. split; [done|].
  unfold Hook.displayedMessages. rewrite displayed_is_filter.
  cbn [default]. intros Hin.
  apply list_elem_of_In, filter_In in Hin as [_ H].
  unfold Hook.shown in H. apply andb_true_iff in H as [H _].
  unfold Hook.in_conversation in H. rewrite Hpriv in H. cbn in H.
  destruct (Hook.privateTo (Hook.hook a)) as [p|]; [|done].
  apply bool_decide_eq_true in H. apply Hpeer. simpl. congruence.
Qed.

End Pane.

(** ann, looking at room "global" with no peer selected, writes to bob; the
    search test is taken to accept nothing. *)
Lemma own_private_message_echo_witness :
  ∃ m,
    (Self "s1", private_message_to_client m)
      ∈ emitted (step (at_time 5) "s1" (private_message "s2" "hi")
                   (run Sample.two_joined init)) ∧
    get (Hook.unreadCounts
           (Hook.handleReceiveMessage m
              (Hook.hook (Hook.mkApp Sample.client_in_global (Some "global") ""))).1)
        "s1"
      = Some (default 0
                (get (Hook.unreadCounts
                        (Hook.hook (Hook.mkApp Sample.client_in_global
                                      (Some "global") ""))) "s1") + 1)%nat ∧
    (Hook.handleReceiveMessage m
       (Hook.hook (Hook.mkApp Sample.client_in_global (Some "global") ""))).2
      = [ Hook.PlaySound;
          Hook.ShowNotification
            ("Private message from " +:+ username (mkUser "ann" "s1" "global"))
            "hi" ] ∧
    Hook.Chat m
      ∉ default []
          (Hook.displayedMessages (λ _ _, false)
             (Hook.with_hook
                (Hook.mkApp Sample.client_in_global (Some "global") "")
                (Hook.handleReceiveMessage m
                   (Hook.hook (Hook.mkApp Sample.client_in_global
                                 (Some "global") ""))).1)).
Proof.
  apply (own_private_message_echo (λ _ _, false) (at_time 5) "s1" "s2" "hi"
           (run Sample.two_joined init) (mkUser "ann" "s1" "global")
           (Hook.mkApp Sample.client_in_global (Some "global") "")).
  - vm_compute; reflexivity.
  - vm_compute; reflexivity.
  - discriminate.
Defined.

(** ** A room switch as the client sees it *)

Lemma room_log_labelled tr r m :
  m ∈ room_log (run tr init) r →
  isPrivate m = false ∧ msg_room m = Some (room_label r).
Proof.
  apply (run_logs_satisfy
           (λ r m, isPrivate m = false ∧ msg_room m = Some (room_label r)));
    [done | done |].
  intros r0 c data Hroom Hpriv. unfold createMessage. simpl.
  rewrite Hroom, Hpriv. split; [done|].
  unfold js_or, truthy, room_label. by destruct (decide (r0 = EmptyString)).
Qed.

(** X23: a registered session switches to a room whose name is not one that
    [rooms] inherits from [Object.prototype], while its socket is in the room
    named by its own id and its current room is not that room.  Then the
    socket receives the room's log as ["room_messages"]; once the client has
    handled it, whatever it held before, it holds as many entries as the log
    has messages, each of them a non-private message labelled with that room:
    after a switch the client holds no private message and no notice any
    more. *)
Theorem room_switch_replaces_messages tr clk sid roomName u v :
  connected (run tr init) sid = true →
  get (users (run tr init)) sid = Some u →
  inherited roomName = false →
  sid ∈ members (sids (run tr init)) sid →
  user_room u ≠ sid →
  ∃ audience log,
    (audience, room_messages log)
      ∈ deliveries (step clk sid (join_room roomName) (run tr init)) ∧
    sid ∈ audience ∧
    log = room_log (run tr init) roomName ∧
    length (Hook.messages (Hook.handleRoomMessages log v)) = length log ∧
    Forall (λ e, match e with
                 | Hook.Chat m =>
                     isPrivate m = false ∧
                     msg_room m = Some (room_label roomName)
                 | Hook.System _ => False
                 end)
      (Hook.messages (Hook.handleRoomMessages log v)).
Proof.
  intros Hc Hu Hown Hmem Hroom.
  assert (Hstep : step clk sid (join_room roomName) (run tr init)
                  = on_join_room sid roomName (run tr init))
    by (simpl; by rewrite Hc).
  rewrite Hstep. clear Hstep. unfold on_join_room, deliveries.
  rewrite Hu, Hown. cbn [next emitted sids map fst snd].
  rewrite join_room_payload.
  eexists _, (room_log (run tr init) roomName).
  split; [|split; [|split; [done|split]]].
  - left.
  - by apply join_keeps_own_room.
  - unfold Hook.handleRoomMessages. simpl. by rewrite length_map.
  - unfold Hook.handleRoomMessages. simpl.
    apply List.Forall_map, Forall_forall. intros m Hm.
    by apply (room_log_labelled tr).
Qed.

(** bob, holding nothing of room "global" yet, switches to it after ann's two
    messages. *)
Lemma room_switch_replaces_messages_witness :
  ∃ audience log,
    (audience, room_messages log)
      ∈ deliveries (step (at_time 9) "s2" (join_room "global")
                      (run Sample.same_millisecond init)) ∧
    "s2" ∈ audience ∧
    log = room_log (run Sample.same_millisecond init) "global" ∧
    length (Hook.messages (Hook.handleRoomMessages log Sample.client_in_global))
      = length log ∧
    Forall (λ e, match e with
                 | Hook.Chat m =>
                     isPrivate m = false ∧
                     msg_room m = Some (room_label "global")
                 | Hook.System _ => False
                 end)
      (Hook.messages (Hook.handleRoomMessages log Sample.client_in_global)).
Proof.
  refine (room_switch_replaces_messages Sample.same_millisecond (at_time 9)
            "s2" "global" (mkUser "bob" "s2" "global")
            Sample.client_in_global _ _ _ _ _).
  - vm_compute; reflexivity.
  - vm_compute; reflexivity.
  - vm_compute; reflexivity.
  - refine (bool_decide_unpack _ _). vm_compute. exact I.
  - discriminate.
Defined.

(* ================================================================== *)
(** * Room names inherited from [Object.prototype] *)

Lemma step_rooms_not_inherited clk sid ev σ :
  rooms_not_inherited σ → rooms_not_inherited (next (step clk sid ev σ)).
Proof.
  intros Hσ.
  assert (Hpush : ∀ r m rs',
            push_message r m (rooms σ) = Some rs' →
            ∀ k log, get rs' k = Some log → inherited k = false).
  { intros r m rs'. unfold push_message.
    destruct (has (rooms σ) r) eqn:Hr; simpl.
    - intros [= <-] k log. rewrite append_log_get.
      destruct (decide (r = k)) as [<-|]; [|by apply Hσ]. intros _.
      unfold has in Hr.
      destruct (get (rooms σ) r) as [l|] eqn:Hl; [by eapply Hσ | done].
    - destruct (inherited r) eqn:Hi; [done|].
      intros [= <-] k log. rewrite append_log_get.
      destruct (decide (r = k)) as [<-|]; [done | by apply Hσ]. }
  destruct ev; simpl; destruct (connected σ sid); simpl; try exact Hσ.
  - unfold on_join_room. destruct (get (users σ) sid); [|exact Hσ].
    intros r log. simpl.
    destruct (has (rooms σ) roomName); [by apply Hσ|].
    destruct (inherited roomName) eqn:Hi; [by apply Hσ|].
    rewrite get_set. destruct (decide (roomName = r)) as [<-|]; [done|].
    by apply Hσ.
  - unfold on_send_message. destruct (get (users σ) sid) as [u|]; [|exact Hσ].
    destruct (push_message _ _ _) as [rs'|] eqn:Hp; [|exact Hσ].
    intros k log. simpl. by eapply Hpush.
  - unfold on_private_message. destruct (get (users σ) sid); exact Hσ.
  - unfold on_send_file. destruct (get (users σ) sid) as [u|]; [|exact Hσ].
    destruct (push_message _ _ _) as [rs'|] eqn:Hp; [|exact Hσ].
    intros k log. simpl. by eapply Hpush.
  - unfold on_typing. destruct (get (users σ) sid); exact Hσ.
  - unfold on_react_message.
    pose proof (react_rooms_get sid messageId r (rooms σ)) as H.
    destruct (react_rooms sid messageId r (rooms σ)) as [rooms' es].
    intros k l' Hk. simpl in *.
    destruct (H k l' Hk) as (l & Hl & _). by eapply Hσ.
  - unfold on_read_message. destruct (get (users σ) sid) as [u|]; [|exact Hσ].
    pose proof (read_rooms_get (username u) messageId (rooms σ)) as H.
    destruct (read_rooms (username u) messageId (rooms σ)) as [rooms' es].
    intros k l' Hk. simpl in *. rewrite H in Hk.
    destruct (get (rooms σ) k) as [l|] eqn:Hl; [by eapply Hσ | done].
  - unfold on_disconnect. simpl. destruct (get (users σ) sid); exact Hσ.
Qed.

Lemma run_rooms_not_inherited tr : ∀ σ,
  rooms_not_inherited σ → rooms_not_inherited (run tr σ).
Proof.
  induction tr as [|i tr IH]; intros σ H; simpl; [done|].
  apply IH. by apply step_rooms_not_inherited.
Qed.

Lemma init_rooms_not_inherited : rooms_not_inherited init.
Proof. by intros r log. Qed.

Lemma inherited_room_absent tr r :
  inherited r = true → has (rooms (run tr init)) r = false.
Proof.
  intros Hi. unfold has.
  destruct (get (rooms (run tr init)) r) as [log|] eqn:Hlog; [|done].
  pose proof (run_rooms_not_inherited tr init init_rooms_not_inherited r log
                Hlog). congruence.
Qed.

Lemma survives_app tr1 tr2 σ :
  survives (tr1 ++ tr2) σ = survives tr1 σ && survives tr2 (run tr1 σ).
Proof.
  revert σ. induction tr1 as [|i tr1 IH]; intros σ; simpl; [done|].
  by rewrite IH, andb_assoc.
Qed.

(** X24: after any sequence of events, when the current room of a registered
    session is named like a property that [rooms] inherits from
    [Object.prototype] (a client can ask for that with ["join_room"]), a
    message or a file sent by the session is neither logged nor emitted: the
    handler throws, and the server does not survive the event. *)
Theorem send_to_inherited_room_throws tr clk sid text fname fdata u :
  connected (run tr init) sid = true →
  get (users (run tr init)) sid = Some u →
  inherited (user_room u) = true →
  step clk sid (send_message text) (run tr init) = throws (run tr init) ∧
  step clk sid (send_file fname fdata) (run tr init) = throws (run tr init) ∧
  survives (tr ++ [mkInput clk sid (send_message text)]) init = false ∧
  survives (tr ++ [mkInput clk sid (send_file fname fdata)]) init = false.
Proof.
  intros Hc Hu Hi.
  pose proof (inherited_room_absent tr _ Hi) as Hr.
  assert (H1 : step clk sid (send_message text) (run tr init)
               = throws (run tr init)).
  { simpl. rewrite Hc. unfold on_send_message. rewrite Hu.
    unfold push_message. by rewrite Hr, Hi. }
  assert (H2 : step clk sid (send_file fname fdata) (run tr init)
               = throws (run tr init)).
  { simpl. rewrite Hc. unfold on_send_file. rewrite Hu.
    unfold push_message. by rewrite Hr, Hi. }
  split; [exact H1|]. split; [exact H2|].
  rewrite !survives_app. cbn [survives]. unfold step_in.
  cbn [in_clock in_sid in_event]. rewrite H1, H2. cbn [thrown throws negb].
  by rewrite !andb_false_r.
Qed.

(** ann has moved to the room "constructor" and writes. *)
Lemma send_to_inherited_room_throws_witness :
  step (at_time 6) "s1" (send_message "hi") (run Sample.ann_in_constructor init)
    = throws (run Sample.ann_in_constructor init) ∧
  step (at_time 6) "s1" (send_file "f" "d") (run Sample.ann_in_constructor init)
    = throws (run Sample.ann_in_constructor init) ∧
  survives (Sample.ann_in_constructor
              ++ [mkInput (at_time 6) "s1" (send_message "hi")]) init = false ∧
  survives (Sample.ann_in_constructor
              ++ [mkInput (at_time 6) "s1" (send_file "f" "d")]) init = false.
Proof.
  refine (send_to_inherited_room_throws Sample.ann_in_constructor (at_time 6)
            "s1" "hi" "f" "d" (mkUser "ann" "s1" "constructor") _ _ _);
    vm_compute; reflexivity.
Defined.

(** X25: after any sequence of events, a switch by a registered session to a
    room named like a property that [rooms] inherits from [Object.prototype]
    creates no room: the logs stay as they were and hold no room of that
    name, the ["room_messages"] packet carries the inherited value instead of
    a list of messages, and the session's current room becomes that name all
    the same; the handler does not throw. *)
Theorem join_inherited_room_creates_no_log tr clk sid roomName u :
  connected (run tr init) sid = true →
  get (users (run tr init)) sid = Some u →
  inherited roomName = true →
  rooms (next (step clk sid (join_room roomName) (run tr init)))
    = rooms (run tr init) ∧
  has (rooms (next (step clk sid (join_room roomName) (run tr init)))) roomName
    = false ∧
  emitted (step clk sid (join_room roomName) (run tr init))
    = [ (InRoom sid, room_messages_not_a_log roomName);
        (InRoom roomName,
         room_users
           (roomUsers
              (users (next (step clk sid (join_room roomName) (run tr init))))
              roomName)) ] ∧
  get (users (next (step clk sid (join_room roomName) (run tr init)))) sid
    = Some (set_user_room u roomName) ∧
  thrown (step clk sid (join_room roomName) (run tr init)) = false.
Proof.
  intros Hc Hu Hi.
  pose proof (inherited_room_absent tr _ Hi) as Hr.
  simpl. rewrite Hc. unfold on_join_room. rewrite Hu, Hr, Hi. simpl.
  split; [done|]. split; [done|]. split.
  { unfold has in Hr. by destruct (get (rooms (run tr init)) roomName). }
  split; [|done]. by rewrite get_update, decide_True, Hu.
Qed.

(** ann, in "global", switches to "constructor". *)
Lemma join_inherited_room_creates_no_log_witness :
  rooms (next (step (at_time 5) "s1" (join_room "constructor")
                 (run Sample.two_joined init)))
    = rooms (run Sample.two_joined init) ∧
  emitted (step (at_time 5) "s1" (join_room "constructor")
             (run Sample.two_joined init))
    = [ (InRoom "s1", room_messages_not_a_log "constructor");
        (InRoom "constructor",
         room_users [mkUser "ann" "s1" "constructor"]) ].
Proof.
  destruct (join_inherited_room_creates_no_log Sample.two_joined (at_time 5)
              "s1" "constructor" (mkUser "ann" "s1" "global"))
    as (Hrooms & _ & He & _).
  - vm_compute; reflexivity.
  - vm_compute; reflexivity.
  - vm_compute; reflexivity.
  - split; [exact Hrooms|]. rewrite He. vm_compute. reflexivity.
Defined.
